(** * Knapsack solver (knapsack/solver.c): dynamic programming and backtrace

    A shallow embedding of [dp_knapsack], [dp_backtrace], [dp_print] and
    [main] of solver.c, followed by the properties of the table and of the
    selection that the specification states.

    The C program works on two flat [int] arrays: [objs] (N records of three
    ints: value, weight, selected flag) and [vals] (the (N+1) x (C+1) table in
    row-major order).  Both live in a small memory record here, and every
    array access goes through [load] and [store], which fail out of range. *)

From Stdlib Require Import ZArith Lia Ascii String.
From stdpp Require Import base list strings.

Local Open Scope Z_scope.

(** ** Machine integers

    [int] is 32 bits, two's complement; [size_t] is 64 bits.  Values are
    kept in [Z] and every operation of the source writes its wrap-around
    out.  For [int] the C standard leaves overflow undefined; the model takes
    the two's complement result, and a cell of the table is an int whatever
    the arithmetic does. *)

Definition int_max : Z := 2147483647.
Definition int_min : Z := -2147483648.
Definition size_max : Z := 18446744073709551615.

Definition wrap_int (z : Z) : Z := (z + 2147483648) mod 4294967296 - 2147483648.
Definition to_size (z : Z) : Z := z mod 18446744073709551616.

Definition int_add (a b : Z) : Z := wrap_int (a + b).
Definition int_sub (a b : Z) : Z := wrap_int (a - b).
Definition int_mul (a b : Z) : Z := wrap_int (a * b).

Definition size_add (a b : Z) : Z := to_size (a + b).
Definition size_sub (a b : Z) : Z := to_size (a - b).
Definition size_mul (a b : Z) : Z := to_size (a * b).

(** ** Memory, events and the monad of the program *)

Inductive arr := Objs | Vals.

(** What the program does to the outside. *)
Inductive event :=
| EvFopen (name : string) (ok : bool)
| EvFscanf (n : nat)                 (* fscanf converted n numbers *)
| EvFclose
| EvPerror (msg : string)
| EvPrintInts (a b : Z)              (* printf("%d %d\n", a, b) *)
| EvPrint (s : string).              (* printf of a literal *)

(** A store the program executed: a[i] = v. *)
Record write := Write { wr_arr : arr; wr_idx : Z; wr_val : Z }.

Record world := World {
  w_objs : list Z;         (* the block objs points to *)
  w_vals : list Z;         (* the block vals points to *)
  w_file : list Z;         (* numbers still to be read from the open stream *)
  w_writes : list write;   (* the stores executed so far, oldest first *)
  w_trace : list event     (* the input and output done so far, oldest first *)
}.

Definition block (a : arr) (w : world) : list Z :=
  match a with Objs => w_objs w | Vals => w_vals w end.

Definition set_block (a : arr) (l : list Z) (w : world) : world :=
  match a with
  | Objs => World l (w_vals w) (w_file w) (w_writes w) (w_trace w)
  | Vals => World (w_objs w) l (w_file w) (w_writes w) (w_trace w)
  end.

Definition set_file (f : list Z) (w : world) : world :=
  World (w_objs w) (w_vals w) f (w_writes w) (w_trace w).

Definition log_write (x : write) (w : world) : world :=
  World (w_objs w) (w_vals w) (w_file w) (w_writes w ++ [x]) (w_trace w).

Definition emit (e : event) (w : world) : world :=
  World (w_objs w) (w_vals w) (w_file w) (w_writes w) (w_trace w ++ [e]).

(** A computation either goes wrong ([None]: an access outside a block, the
    use of a variable that was never assigned, a loop that does not end) or
    returns a value and the new state. *)
Definition M (A : Type) : Type := world -> option (A * world).

Definition ret {A} (x : A) : M A := fun w => Some (x, w).
Definition fail {A} : M A := fun _ => None.
Definition bind {A B} (m : M A) (f : A -> M B) : M B :=
  fun w => match m w with
           | Some (x, w') => f x w'
           | None => None
           end.

Notation "'do' x <- m ; f" := (bind m (fun x => f))
  (at level 10, x name, m at level 100, f at level 200, only parsing).
Notation "'run' m ; f" := (bind m (fun _ => f))
  (at level 10, m at level 100, f at level 200, only parsing).

Definition tell (e : event) : M unit := fun w => Some (tt, emit e w).

(** The element at index [i] of a block, if there is one. *)
Definition elem (l : list Z) (i : Z) : option Z :=
  if decide (0 <= i) then l !! Z.to_nat i else None.

(** a[i] as an rvalue *)
Definition load (a : arr) (i : Z) : M Z :=
  fun w => match elem (block a w) i with
           | Some v => Some (v, w)
           | None => None
           end.

(** a[i] = v *)
Definition store (a : arr) (i v : Z) : M unit :=
  fun w => if decide (0 <= i < Z.of_nat (length (block a w)))
           then Some (tt, log_write (Write a i v)
                            (set_block a (<[Z.to_nat i := v]> (block a w)) w))
           else None.

(** a = calloc(count, sizeof(int)): a zeroed block of [count] ints.  When
    count * 4 does not fit a size_t the call returns NULL; the program never
    tests for it, and NULL is kept as the empty block, where every access
    fails.  Any smaller request is taken to succeed. *)
Definition calloc (a : arr) (count : Z) : M unit :=
  fun w => Some (tt, set_block a (if decide (count * 4 <= size_max)
                                  then replicate (Z.to_nat count) 0
                                  else []) w).

Definition free (a : arr) : M unit :=
  fun w => Some (tt, set_block a [] w).

(** ** Loops

    The counters are size_t.  Each loop tests its condition as the source
    does; [fuel] only bounds the unfolding and is set by the callers to more
    than the number of iterations of a loop that ends. *)

(* for (size_t i = i0; cond(i); i++) body(i) *)
Fixpoint for_up (fuel : nat) (cond : Z -> bool) (i : Z) (body : Z -> M unit) : M unit :=
  match fuel with
  | O => fail
  | S fuel' =>
      if cond i then run body i; for_up fuel' cond (size_add i 1) body
      else ret tt
  end.

(* for (size_t i = i0; i > 0; i--) k = body(i, k) *)
Fixpoint for_down (fuel : nat) (i : Z) (body : Z -> Z -> M Z) (k : Z) : M Z :=
  match fuel with
  | O => fail
  | S fuel' =>
      if 0 <? i then do k' <- body i k; for_down fuel' (size_sub i 1) body k'
      else ret k
  end.

(** ** dp_backtrace (lines 26-34) *)

(* index of table cell (i, k): i*(c+1) + k, with c+1 computed in int *)
Definition cell_index (c i k : Z) : Z :=
  size_add (size_mul i (to_size (int_add c 1))) k.

Definition bt_body (c : Z) (i : Z) (k : Z) : M Z :=
  do a <- load Vals (cell_index c i (to_size k));
  do b <- load Vals (cell_index c (size_sub i 1) (to_size k));
  if negb (a =? b) then
    run store Objs (size_add (size_mul (size_sub i 1) 3) 2) 1;
    do w <- load Objs (size_add (size_mul (size_sub i 1) 3) 1);
    ret (int_sub k w)
  else ret k.

Definition dp_backtrace (n c : Z) : M unit :=
  run for_down (S (Z.to_nat (to_size n))) (to_size n) (bt_body c) c; ret tt.

(** ** dp_print (lines 41-50) *)

Definition print_body (i : Z) : M unit :=
  do x <- load Objs (size_add (size_mul i 3) 2);
  if x =? 1 then tell (EvPrint "1 ") else tell (EvPrint "0 ").

Definition newline : string := String "010"%char EmptyString.

Definition dp_print (n max optimal : Z) : M unit :=
  run tell (EvPrintInts max optimal);
  run for_up (S (Z.to_nat (to_size n))) (fun i => i <? to_size n) 0 print_body;
  tell (EvPrint newline).

(** ** dp_knapsack (lines 61-84) *)

(* lines 72-78: the body of the inner loop *)
Definition fill_cell (c : Z) (i k : Z) : M unit :=
  do v <- load Objs (size_mul (size_sub i 1) 3);
  do w <- load Objs (size_add (size_mul (size_sub i 1) 3) 1);
  if k <? to_size w then
    do x <- load Vals (cell_index c (size_sub i 1) k);
    store Vals (cell_index c i k) x
  else
    do a <- load Vals (cell_index c (size_sub i 1) k);
    do b <- load Vals (cell_index c (size_sub i 1) (size_sub k (to_size w)));
    store Vals (cell_index c i k) (if a >=? int_add b v then a else int_add b v).

Definition fill_row (c : Z) (i : Z) : M unit :=
  for_up (S (S (Z.to_nat (to_size c)))) (fun k => k <=? to_size c) 0 (fill_cell c i).

(* lines 66-80: the allocation and the two nested loops *)
Definition dp_fill (n c : Z) : M unit :=
  run calloc Vals (to_size (int_mul (int_add n 1) (int_add c 1)));
  for_up (S (Z.to_nat (to_size n))) (fun i => i <=? to_size n) 1 (fill_row c).

Definition dp_knapsack (n c : Z) : M unit :=
  run dp_fill n c;
  run dp_backtrace n c;
  do best <- load Vals (int_add (int_mul n (int_add c 1)) c);
  run dp_print n best 1;
  free Vals.

(** ** main (lines 86-115)

    The file system is a function from names to the numbers that the
    [fscanf] conversions of the program yield on that file; [None] is a file
    that cannot be opened. *)

Definition filesystem : Type := string -> option (list Z).

(* fp = fopen(filename, "rb"); the result says whether fp != NULL *)
Definition fopen (fs : filesystem) (name : string) : M bool :=
  fun w => match fs name with
           | Some toks =>
               Some (true, emit (EvFopen name true) (set_file toks w))
           | None => Some (false, emit (EvFopen name false) w)
           end.

(* fscanf(fp, "%d %d\n", ...): the numbers converted, two at most *)
Definition fscanf2 : M (list Z) :=
  fun w => let got := take 2 (w_file w) in
           Some (got, emit (EvFscanf (length got)) (set_file (drop 2 (w_file w)) w)).

Definition fclose : M unit :=
  fun w => Some (tt, emit EvFclose (set_file [] w)).

(* fscanf(fp, "%d %d\n", &objs[i*3], &objs[i*3 + 1]) *)
Definition read_item (i : Z) : M unit :=
  do got <- fscanf2;
  match got with
  | v :: w :: _ =>
      run store Objs (size_mul i 3) v;
      store Objs (size_add (size_mul i 3) 1) w
  | [v] => store Objs (size_mul i 3) v
  | [] => ret tt
  end.

Definition main (argc : Z) (argv : list string) (fs : filesystem) : M Z :=
  if argc =? 2 then
    match argv !! 1%nat with
    | None => fail
    | Some filename =>
        do opened <- fopen fs filename;
        if negb opened then
          run tell (EvPerror "Could not open file.");
          ret (-1)
        else
          do header <- fscanf2;
          match header with
          | n :: capacity :: _ =>
              run calloc Objs (to_size (int_mul n 3));
              run for_up (S (Z.to_nat (to_size n))) (fun i => i <? to_size n) 0 read_item;
              run fclose;
              run dp_knapsack n capacity;
              run free Objs;
              ret 0
          | _ => fail   (* n or capacity is used without a value *)
          end
    end
  else ret 0.

(** ** Items and the state the solver starts from *)

Abbreviation item := (Z * Z)%type.      (* value, weight *)

(* the block main builds: calloc, then one value and one weight per item *)
Fixpoint objs_of (items : list item) : list Z :=
  match items with
  | [] => []
  | (v, w) :: rest => v :: w :: 0 :: objs_of rest
  end.

Definition start (items : list item) : world := World (objs_of items) [] [] [] [].

Definition count (items : list item) : Z := Z.of_nat (length items).

(* the table dp_knapsack builds for these items, when it builds one *)
Definition dp_table (items : list item) (c : Z) : option (list Z) :=
  match dp_fill (count items) c (start items) with
  | Some (_, w) => Some (w_vals w)
  | None => None
  end.

(** A well-formed instance: values and weights that are non-negative ints,
    a non-negative capacity, and a table whose number of cells, (N+1)*(C+1),
    is an int, as the argument of calloc computes it. *)
Definition item_ok (it : item) : Prop :=
  0 <= it.1 <= int_max /\ 0 <= it.2 <= int_max.

Record instance_ok (items : list item) (c : Z) : Prop := {
  ok_items : Forall item_ok items;
  ok_cap : 0 <= c;
  ok_cells : (count items + 1) * (c + 1) <= int_max
}.

(** The cell (p, k) of a flat table with rows of c+1 cells. *)
Definition cell (vals : list Z) (c p k : Z) : option Z := elem vals (p * (c + 1) + k).

(** ** The recurrence as the machine evaluates it

    [tab items p k] follows the two branches of the inner loop, with the
    addition in int; the loops are shown below to store exactly this value in
    cell (p, k). *)
Fixpoint tab (items : list item) (p : nat) (k : Z) : Z :=
  match p with
  | O => 0
  | S p' =>
      match items !! p' with
      | Some (v, w) =>
          if k <? w then tab items p' k
          else if tab items p' k >=? int_add (tab items p' (k - w)) v
               then tab items p' k
               else int_add (tab items p' (k - w)) v
      | None => tab items p' k
      end
  end.

(** ** The exact recurrence and the brute-force optimum *)

Definition total_value (items : list item) : Z := foldr (fun it s => it.1 + s) 0 items.

(* value and weight of the items picked by a selection vector *)
Fixpoint picked_value (items : list item) (sel : list bool) : Z :=
  match items, sel with
  | (v, _) :: items', b :: sel' => (if b then v else 0) + picked_value items' sel'
  | _, _ => 0
  end.

Fixpoint picked_weight (items : list item) (sel : list bool) : Z :=
  match items, sel with
  | (_, w) :: items', b :: sel' => (if b then w else 0) + picked_weight items' sel'
  | _, _ => 0
  end.

(* all 2^n selection vectors of length n *)
Fixpoint selections (n : nat) : list (list bool) :=
  match n with
  | O => [[]]
  | S n' => map (cons false) (selections n') ++ map (cons true) (selections n')
  end.

(* the best total value among the selections of total weight at most c *)
Definition brute_force (items : list item) (c : Z) : Z :=
  foldr Z.max 0
    (map (picked_value items)
       (filter (fun sel => picked_weight items sel <= c) (selections (length items)))).

(** ** What the specification states of a table *)

(* table[0][k] = 0, and the two cases of the recurrence, with exact
   arithmetic *)
Definition recurrence_holds (items : list item) (c : Z) (vals : list Z) : Prop :=
  (forall k, 0 <= k <= c -> cell vals c 0 k = Some 0) /\
  (forall p k v w, 1 <= p <= count items -> 0 <= k <= c ->
     items !! Z.to_nat (p - 1) = Some (v, w) ->
     exists prev, cell vals c (p - 1) k = Some prev /\
       (k < w -> cell vals c p k = Some prev) /\
       (w <= k -> exists inc, cell vals c (p - 1) (k - w) = Some inc /\
                    cell vals c p k = Some (Z.max prev (inc + v)))).

(* table[p][k] <= table[p][k+1] and table[p][k] <= table[p+1][k] *)
Definition monotone (n c : Z) (vals : list Z) : Prop :=
  (forall p k, 0 <= p <= n -> 0 <= k <= c - 1 ->
     exists a b, cell vals c p k = Some a /\ cell vals c p (k + 1) = Some b /\ a <= b) /\
  (forall p k, 0 <= p <= n - 1 -> 0 <= k <= c ->
     exists a b, cell vals c p k = Some a /\ cell vals c (p + 1) k = Some b /\ a <= b).

(** ** What the specification states of the selection *)

(* field f (0 value, 1 weight, 2 flag) of record i of the item block *)
Definition field (objs : list Z) (i f : nat) : Z := default 0 (objs !! (3 * i + f)%nat).

Fixpoint sum_upto (n : nat) (g : nat -> Z) : Z :=
  match n with
  | O => 0
  | S n' => sum_upto n' g + g n'
  end.

(* sum over i of weight_i * selected_i, and of value_i * selected_i *)
Definition selected_weight (objs : list Z) (n : nat) : Z :=
  sum_upto n (fun i => field objs i 1 * field objs i 2).
Definition selected_value (objs : list Z) (n : nat) : Z :=
  sum_upto n (fun i => field objs i 0 * field objs i 2).

(* lines 66-81: the table is built, then walked back *)
Definition dp_solve (n c : Z) : M unit :=
  run dp_fill n c;
  dp_backtrace n c.

(* the states in which dp_backtrace enters an iteration: the loop counter,
   the cursor and the memory; [w1] is the state in which it is called *)
Inductive bt_visits (n c : Z) (w1 : world) : Z -> Z -> world -> Prop :=
| bt_first : bt_visits n c w1 (to_size n) c w1
| bt_next (i k k' : Z) (w w' : world) :
    bt_visits n c w1 i k w ->
    0 < i ->
    bt_body c i k w = Some (k', w') ->
    bt_visits n c w1 (size_sub i 1) k' w'.

(* the iteration records the inclusion of item i (1-based) *)
Definition marks (i : Z) (w w' : world) : Prop :=
  w_writes w' = w_writes w ++ [Write Objs ((i - 1) * 3 + 2) 1].

(** ** Input files *)

(* the numbers of an input file: N and C, then V and W for each item *)
Fixpoint numbers_of (items : list item) : list Z :=
  match items with
  | [] => []
  | (v, w) :: rest => v :: w :: numbers_of rest
  end.

Definition input_of (items : list item) (c : Z) : list Z :=
  count items :: c :: numbers_of items.

Definition file_of (numbers : list Z) : filesystem :=
  fun name => if String.eqb name "input" then Some numbers else None.

(* what main returns and the input and output it does, started in a state
   with nothing allocated *)
Definition run_main (argv : list string) (fs : filesystem) : option (Z * list event) :=
  match main (Z.of_nat (length argv)) argv fs (World [] [] [] [] []) with
  | Some (status, w) => Some (status, w_trace w)
  | None => None
  end.

(** ** What dp_print writes *)

(* the token printed for a flag: "1 " for the value 1, "0 " for any other *)
Definition flag_token (x : Z) : event :=
  EvPrint (if x =? 1 then "1 " else "0 ").

(* the tokens of the first n items, in the order of the items *)
Definition printed_flags (objs : list Z) (n : nat) : list event :=
  map (fun i => flag_token (field objs i 2)) (seq 0 n).

(* the two lines of a solution *)
Definition printed (objs : list Z) (n : nat) (max optimal : Z) : list event :=
  EvPrintInts max optimal :: printed_flags objs n ++ [EvPrint newline].

(* the state after more input and output, memory as it was *)
Definition add_trace (es : list event) (w : world) : world :=
  World (w_objs w) (w_vals w) (w_file w) (w_writes w) (w_trace w ++ es).

(** ** What main reads from a file of any length *)

(* the item one call of fscanf leaves in a zeroed record: a number that is
   not there leaves the 0 of calloc *)
Definition next_item (nums : list Z) : item :=
  match nums with
  | v :: w :: _ => (v, w)
  | [v] => (v, 0)
  | [] => (0, 0)
  end.

(* the items after n calls, from the numbers that follow the header *)
Fixpoint items_read (n : nat) (nums : list Z) : list item :=
  match n with
  | O => []
  | S n' => next_item nums :: items_read n' (drop 2 nums)
  end.

(* the n calls of fscanf, each with the count of numbers it converted *)
Definition scan_events (n : nat) (nums : list Z) : list event :=
  map (fun i => EvFscanf (length (take 2 (drop (2 * i) nums)))) (seq 0 n).

(** ** Invariants used in the proofs *)

(* the block holds the values and weights of the items; the flags are free *)
Definition holds_items (items : list item) (objs : list Z) : Prop :=
  length objs = (3 * length items)%nat /\
  forall (i : nat) (v w : Z), items !! i = Some (v, w) ->
    objs !! (3 * i)%nat = Some v /\ objs !! (3 * i + 1)%nat = Some w.

(* every cell before (i, k), in the order the loops visit them, holds [tab] *)
Definition filled (items : list item) (c : Z) (vals : list Z) (i k : Z) : Prop :=
  forall p k', 0 <= p -> 0 <= k' <= c -> p < i \/ (p = i /\ k' < k) ->
    cell vals c p k' = Some (tab items (Z.to_nat p) k').

(* what the loops keep: the items, the file, the trace, the size of the table *)
Definition fill_inv (items : list item) (c : Z) (w0 : world) (i k : Z) (w : world) : Prop :=
  w_objs w = w_objs w0 /\ w_file w = w_file w0 /\ w_trace w = w_trace w0 /\
  Z.of_nat (length (w_vals w)) = (count items + 1) * (c + 1) /\
  filled items c (w_vals w) i k.

(* [m] is the best value of a selection of [items] of weight at most [c] *)
Definition best (items : list item) (c m : Z) : Prop :=
  (exists sel, length sel = length items /\
               picked_weight items sel <= c /\ picked_value items sel = m) /\
  (forall sel, length sel = length items ->
               picked_weight items sel <= c -> picked_value items sel <= m).

(* a state in which the table is complete and the items are in place *)
Definition bt_world (items : list item) (c : Z) (w : world) : Prop :=
  holds_items items (w_objs w) /\
  Z.of_nat (length (w_vals w)) = (count items + 1) * (c + 1) /\
  forall p k, 0 <= p <= count items -> 0 <= k <= c ->
    cell (w_vals w) c p k = Some (tab items (Z.to_nat p) k).

(* the state after the store of an iteration that marks item i *)
Definition marked (i : Z) (w : world) : world :=
  log_write (Write Objs ((i - 1) * 3 + 2) 1)
    (set_block Objs (<[Z.to_nat ((i - 1) * 3 + 2) := 1]> (w_objs w)) w).

(* what the loop of dp_backtrace keeps, entering the iteration for item i
   with cursor k *)
Definition bt_inv (items : list item) (c : Z) (i k : Z) (w : world) : Prop :=
  bt_world items c w /\ 0 <= k <= c /\ 0 <= i <= count items /\
  (forall j, (j < length items)%nat ->
     field (w_objs w) j 2 = 0 \/ field (w_objs w) j 2 = 1) /\
  (forall j, (j < Z.to_nat i)%nat -> field (w_objs w) j 2 = 0) /\
  selected_value (w_objs w) (length items)
    = tab items (length items) c - tab items (Z.to_nat i) k /\
  selected_weight (w_objs w) (length items) = c - k.

(* the stores of dp_backtrace so far: all of the value 1, into the flags of
   distinct items above i *)
Definition flag_writes (n i : Z) (ws : list write) : Prop :=
  NoDup (map wr_idx ws) /\
  Forall (fun x => wr_arr x = Objs /\ wr_val x = 1 /\
                   exists i', i < i' <= n /\ wr_idx x = (i' - 1) * 3 + 2) ws.

Definition frame_inv (n : Z) (w0 : world) (i : Z) (w : world) : Prop :=
  w_vals w = w_vals w0 /\ w_file w = w_file w0 /\ w_trace w = w_trace w0 /\
  length (w_objs w) = length (w_objs w0) /\
  (forall j f : nat, (f < 2)%nat ->
     w_objs w !! (3 * j + f)%nat = w_objs w0 !! (3 * j + f)%nat) /\
  (forall j : nat, w_objs w !! (3 * j + 2)%nat = w_objs w0 !! (3 * j + 2)%nat \/
                   w_objs w !! (3 * j + 2)%nat = Some 1) /\
  exists ws, w_writes w = w_writes w0 ++ ws /\ flag_writes n i ws.

(* what the reading loop of main keeps: the first j items are in place, the
   rest of the block is still zero, the rest of the file is still to read *)
Definition read_inv (items : list item) (w0 : world) (j : Z) (w : world) : Prop :=
  w_objs w = objs_of (take (Z.to_nat j) items)
               ++ replicate (3 * (length items - Z.to_nat j)) 0 /\
  w_file w = numbers_of (drop (Z.to_nat j) items) /\
  w_vals w = w_vals w0.

(* what the reading loop keeps on any file: j records read, the rest of the
   block zero, 2*j numbers consumed, one fscanf event per record *)
Definition read_any_inv (n : nat) (nums : list Z) (w0 : world) (j : Z) (w : world) : Prop :=
  w_objs w = objs_of (items_read (Z.to_nat j) nums)
               ++ replicate (3 * (n - Z.to_nat j)) 0 /\
  w_file w = drop (2 * Z.to_nat j) nums /\
  w_vals w = w_vals w0 /\
  w_trace w = w_trace w0 ++ scan_events (Z.to_nat j) nums.

(* the stores of the filling loops so far: all into the table, at the
   [len] consecutive indices from [first] on, in that order *)
Definition table_writes (first len : Z) (ws : list write) : Prop :=
  map wr_idx ws = seqZ first len /\ Forall (fun x => wr_arr x = Vals) ws.

(* the filling loops keep [fill_inv] and have stored [len] cells from
   [first] on since the state [ws0] *)
Definition fill_log (items : list item) (c : Z) (w0 : world) (ws0 : list write)
    (first len : Z) (i k : Z) (w : world) : Prop :=
  fill_inv items c w0 i k w /\
  exists ws, w_writes w = ws0 ++ ws /\ table_writes first len ws.

(* [bt_inv], and every item the loop has been through has a flag that the
   rule [R] accepts *)
Definition bt_rule_inv (items : list item) (c : Z) (R : nat -> Z -> Prop)
    (i k : Z) (w : world) : Prop :=
  bt_inv items c i k w /\
  forall j, (Z.to_nat i <= j < length items)%nat -> R j (field (w_objs w) j 2).

(* what the inner loop keeps for an item of negative weight: the cells of
   row i before column k are copies of the row above, every other row is as
   it was *)
Definition copy_inv (c i : Z) (w0 : world) (k : Z) (w : world) : Prop :=
  w_objs w = w_objs w0 /\ length (w_vals w) = length (w_vals w0) /\
  (forall k', 0 <= k' < k -> cell (w_vals w) c i k' = cell (w_vals w0) c (i - 1) k') /\
  (forall p k', p <> i -> 0 <= k' <= c ->
     cell (w_vals w) c p k' = cell (w_vals w0) c p k').

(** * Proofs *)

(** ** Arithmetic without wrap-around *)

Lemma wrap_int_id (z : Z) : int_min <= z <= int_max -> wrap_int z = z.
Proof.
  unfold int_min, int_max, wrap_int. intros H.
  rewrite Z.mod_small by lia. lia.
Qed.

Lemma wrap_int_range (z : Z) : int_min <= wrap_int z <= int_max.
Proof.
  unfold int_min, int_max, wrap_int.
  pose proof (Z.mod_pos_bound (z + 2147483648) 4294967296 eq_refl). lia.
Qed.

Lemma to_size_id (z : Z) : 0 <= z <= size_max -> to_size z = z.
Proof.
  unfold size_max, to_size. intros H. apply Z.mod_small. lia.
Qed.

(* the sum of two non-negative ints either fits or wraps to a negative *)
Lemma int_add_nonneg (a b : Z) :
  0 <= a <= int_max -> 0 <= b <= int_max ->
  int_add a b = a + b \/ int_add a b < 0.
Proof.
  unfold int_add, int_max. intros Ha Hb.
  destruct (decide (a + b <= 2147483647)) as [Hle|Hgt].
  - left. apply wrap_int_id. unfold int_min, int_max. lia.
  - right. unfold wrap_int.
    replace (a + b + 2147483648) with ((a + b - 2147483648) + 1 * 4294967296) by lia.
    rewrite Z.mod_add by lia. rewrite Z.mod_small by lia. lia.
Qed.

(** ** The monad *)

Lemma bind_Some {A B} (m : M A) (f : A -> M B) (w : world) (r : B * world) :
  bind m f w = Some r <-> exists x w1, m w = Some (x, w1) /\ f x w1 = Some r.
Proof.
  unfold bind. split.
  - destruct (m w) as [[x w1]|] eqn:E; [|discriminate]. eauto.
  - intros (x & w1 & -> & H). exact H.
Qed.

Lemma bind_run {A B} (m : M A) (f : A -> M B) (w w1 : world) (x : A) :
  m w = Some (x, w1) -> bind m f w = f x w1.
Proof. unfold bind. intros ->. reflexivity. Qed.

Lemma load_run (a : arr) (i v : Z) (w : world) :
  elem (block a w) i = Some v -> load a i w = Some (v, w).
Proof. unfold load. intros ->. reflexivity. Qed.

Lemma load_inv (a : arr) (i v : Z) (w w' : world) :
  load a i w = Some (v, w') -> w' = w /\ elem (block a w) i = Some v.
Proof.
  unfold load. destruct (elem (block a w) i); [|discriminate].
  intros [= -> ->]. auto.
Qed.

Lemma store_run (a : arr) (i v : Z) (w : world) :
  0 <= i < Z.of_nat (length (block a w)) ->
  store a i v w =
    Some (tt, log_write (Write a i v) (set_block a (<[Z.to_nat i := v]> (block a w)) w)).
Proof. unfold store. intros H. rewrite decide_True by exact H. reflexivity. Qed.

Lemma store_inv (a : arr) (i v : Z) (w w' : world) (u : unit) :
  store a i v w = Some (u, w') ->
  0 <= i < Z.of_nat (length (block a w)) /\
  w' = log_write (Write a i v) (set_block a (<[Z.to_nat i := v]> (block a w)) w).
Proof.
  unfold store. destruct (decide _) as [H|H]; [|discriminate].
  intros [= _ <-]. auto.
Qed.

Lemma elem_Some (l : list Z) (i v : Z) :
  elem l i = Some v <-> 0 <= i /\ l !! Z.to_nat i = Some v.
Proof.
  unfold elem. destruct (decide (0 <= i)) as [Hi|Hi].
  - split; [intros H; split; assumption | intros [_ H]; exact H].
  - split; [discriminate | intros [H _]; contradiction].
Qed.

Lemma elem_insert_eq (l : list Z) (i v : Z) :
  0 <= i < Z.of_nat (length l) -> elem (<[Z.to_nat i := v]> l) i = Some v.
Proof.
  intros H. apply elem_Some. split; [lia|].
  apply list_lookup_insert_eq. lia.
Qed.

Lemma elem_insert_ne (l : list Z) (i j v : Z) :
  0 <= i -> i <> j -> elem (<[Z.to_nat i := v]> l) j = elem l j.
Proof.
  intros Hi Hne. unfold elem. destruct (decide (0 <= j)); [|reflexivity].
  apply list_lookup_insert_ne. lia.
Qed.

Lemma elem_replicate (n : nat) (x i : Z) :
  0 <= i < Z.of_nat n -> elem (replicate n x) i = Some x.
Proof.
  intros H. apply elem_Some. split; [lia|].
  apply lookup_replicate. split; [reflexivity|lia].
Qed.

(** ** Loop rules *)

Section loops.
Variable body : Z -> M unit.
Variable cond : Z -> bool.
Variable stop : Z.
Variable Inv : Z -> world -> Prop.
Hypothesis stop_max : stop <= size_max.
Hypothesis cond_stop : cond stop = false.

(* total correctness of an upward loop that ends at [stop] *)
Lemma for_up_total (fuel : nat) (lo : Z) (w : world) :
  0 <= lo <= stop ->
  (forall j, lo <= j < stop -> cond j = true) ->
  (forall j w0, lo <= j < stop -> Inv j w0 ->
     exists w1, body j w0 = Some (tt, w1) /\ Inv (j + 1) w1) ->
  (Z.to_nat (stop - lo) < fuel)%nat ->
  Inv lo w ->
  exists w', for_up fuel cond lo body w = Some (tt, w') /\ Inv stop w'.
Proof.
  revert lo w. induction fuel as [|fuel IH]; intros lo w Hlo Hcond Hbody Hfuel HI.
  - lia.
  - simpl. destruct (decide (lo = stop)) as [->|Hne].
    + rewrite cond_stop. eexists; split; [reflexivity|exact HI].
    + rewrite Hcond by lia.
      destruct (Hbody lo w ltac:(lia) HI) as (w1 & Hb & HI1).
      rewrite (bind_run _ _ _ _ _ Hb).
      assert (Hs : size_add lo 1 = lo + 1) by (apply to_size_id; lia).
      rewrite Hs. apply IH; try lia; auto.
      * intros j Hj. apply Hcond. lia.
      * intros j w0 Hj. apply Hbody. lia.
Qed.
End loops.

(** ** The item block *)

Lemma objs_of_length (items : list item) :
  length (objs_of items) = (3 * length items)%nat.
Proof.
  induction items as [|[v w] items IH]; simpl; [reflexivity|]. rewrite IH. lia.
Qed.

Lemma objs_of_lookup (items : list item) (i : nat) (v w : Z) :
  items !! i = Some (v, w) ->
  objs_of items !! (3 * i)%nat = Some v /\
  objs_of items !! (3 * i + 1)%nat = Some w /\
  objs_of items !! (3 * i + 2)%nat = Some 0.
Proof.
  revert i. induction items as [|[v0 w0] items IH]; intros i H.
  - discriminate.
  - destruct i as [|i].
    + simpl in H. injection H as -> ->. simpl. auto.
    + simpl in H. apply IH in H.
      replace (3 * S i)%nat with (S (S (S (3 * i)))) by lia. simpl. exact H.
Qed.

Lemma holds_items_objs_of (items : list item) : holds_items items (objs_of items).
Proof.
  split; [apply objs_of_length|].
  intros i v w H. apply objs_of_lookup in H. tauto.
Qed.

Lemma instance_count (items : list item) (c : Z) :
  instance_ok items c -> 0 <= count items <= int_max /\ c + 1 <= int_max.
Proof.
  intros [_ Hc Hn]. unfold count in *. unfold int_max in *. nia.
Qed.

Lemma item_at (items : list item) (i : Z) :
  1 <= i <= count items ->
  exists v w, items !! Z.to_nat (i - 1) = Some (v, w).
Proof.
  unfold count. intros H.
  destruct (lookup_lt_is_Some_2 items (Z.to_nat (i - 1)) ltac:(lia)) as [[v w] E].
  eauto.
Qed.

Lemma item_at_ok (items : list item) (i : nat) (v w : Z) :
  Forall item_ok items -> items !! i = Some (v, w) ->
  0 <= v <= int_max /\ 0 <= w <= int_max.
Proof.
  intros Hall H. rewrite Forall_lookup in Hall. exact (Hall _ _ H).
Qed.

(** ** Index arithmetic inside the table *)

Lemma cell_index_id (c i k : Z) :
  0 <= c -> c + 1 <= int_max -> 0 <= i -> 0 <= k ->
  i * (c + 1) + k <= int_max ->
  cell_index c i k = i * (c + 1) + k.
Proof.
  intros Hc Hc1 Hi Hk Hb. unfold cell_index, size_add, size_mul, int_add.
  unfold int_max in *.
  rewrite (wrap_int_id (c + 1)) by (unfold int_min, int_max; lia).
  rewrite (to_size_id (c + 1)) by (unfold size_max; lia).
  rewrite (to_size_id (i * (c + 1))) by (unfold size_max; nia).
  apply to_size_id. unfold size_max. nia.
Qed.

Lemma cell_bound (n c p k : Z) :
  0 <= p <= n -> 0 <= k <= c ->
  0 <= p * (c + 1) + k < (n + 1) * (c + 1).
Proof. intros Hp Hk. nia. Qed.

Lemma cell_inj (c p k p' k' : Z) :
  0 <= k <= c -> 0 <= k' <= c ->
  p * (c + 1) + k = p' * (c + 1) + k' -> p = p' /\ k = k'.
Proof. intros Hk Hk' H. assert (p = p') by nia. subst. lia. Qed.

(** ** The loops of dp_knapsack store [tab] *)

Lemma tab_step (items : list item) (i : Z) (k v w : Z) :
  1 <= i -> items !! Z.to_nat (i - 1) = Some (v, w) ->
  tab items (Z.to_nat i) k =
    if k <? w then tab items (Z.to_nat (i - 1)) k
    else if tab items (Z.to_nat (i - 1)) k >=? int_add (tab items (Z.to_nat (i - 1)) (k - w)) v
         then tab items (Z.to_nat (i - 1)) k
         else int_add (tab items (Z.to_nat (i - 1)) (k - w)) v.
Proof.
  intros Hi H. replace (Z.to_nat i) with (S (Z.to_nat (i - 1))) by lia.
  simpl. rewrite H. reflexivity.
Qed.

Lemma fill_cell_spec (items : list item) (c : Z) (w0 w : world) (i k : Z) :
  instance_ok items c -> holds_items items (w_objs w0) ->
  1 <= i <= count items -> 0 <= k <= c ->
  fill_inv items c w0 i k w ->
  exists w', fill_cell c i k w = Some (tt, w') /\ fill_inv items c w0 i (k + 1) w'.
Proof.
  intros Hok [Hlen Hobjs] Hi Hk (Eo & Ef & Et & Hsz & Hfill).
  pose proof (instance_count _ _ Hok) as [Hn Hc1].
  pose proof Hok as [Hall Hc Hcells].
  destruct (item_at items i Hi) as (v & wt & Hit).
  destruct (item_at_ok _ _ _ _ Hall Hit) as [Hv Hw].
  destruct (Hobjs _ _ _ Hit) as [Ev Ew].
  pose proof (cell_bound (count items) c i k ltac:(lia) Hk) as Bi.
  pose proof (cell_bound (count items) c (i - 1) k ltac:(lia) Hk) as Bp.
  unfold int_max in *.
  assert (S1 : size_sub i 1 = i - 1) by (apply to_size_id; unfold size_max; lia).
  assert (S2 : size_mul (i - 1) 3 = (i - 1) * 3) by (apply to_size_id; unfold size_max; lia).
  assert (S3 : size_add ((i - 1) * 3) 1 = (i - 1) * 3 + 1)
    by (apply to_size_id; unfold size_max; lia).
  assert (S4 : to_size wt = wt) by (apply to_size_id; unfold size_max; lia).
  assert (Ci : cell_index c i k = i * (c + 1) + k)
    by (apply cell_index_id; unfold int_max; lia).
  assert (Cp : cell_index c (i - 1) k = (i - 1) * (c + 1) + k)
    by (apply cell_index_id; unfold int_max; lia).
  assert (Lv : load Objs ((i - 1) * 3) w = Some (v, w)).
  { apply load_run. simpl. rewrite Eo. apply elem_Some. split; [lia|].
    rewrite <- Ev. f_equal. lia. }
  assert (Lw : load Objs ((i - 1) * 3 + 1) w = Some (wt, w)).
  { apply load_run. simpl. rewrite Eo. apply elem_Some. split; [lia|].
    rewrite <- Ew. f_equal. lia. }
  assert (La : load Vals ((i - 1) * (c + 1) + k) w
               = Some (tab items (Z.to_nat (i - 1)) k, w)).
  { apply load_run. simpl. apply (Hfill (i - 1) k); lia. }
  (* the value the iteration stores is the one [tab] gives *)
  assert (Hstore : forall x, x = tab items (Z.to_nat i) k ->
            exists w', store Vals (i * (c + 1) + k) x w = Some (tt, w') /\
                       fill_inv items c w0 i (k + 1) w').
  { intros x ->. rewrite store_run by (simpl; lia).
    eexists; split; [reflexivity|]. unfold fill_inv. simpl.
    repeat split; try assumption.
    - rewrite length_insert. exact Hsz.
    - intros p k' Hp Hk' Hlt. unfold cell.
      destruct (decide (p = i /\ k' = k)) as [[-> ->]|Hne].
      + apply elem_insert_eq. lia.
      + rewrite elem_insert_ne.
        * apply (Hfill p k' Hp Hk'). lia.
        * lia.
        * intros E. apply cell_inj in E; [|lia..]. lia. }
  unfold fill_cell. rewrite S1, S2, S3, Ci, Cp.
  rewrite (bind_run _ _ _ _ _ Lv), (bind_run _ _ _ _ _ Lw), S4.
  rewrite (tab_step items i k v wt ltac:(lia) Hit) in Hstore.
  destruct (k <? wt) eqn:Ekw.
  - rewrite (bind_run _ _ _ _ _ La). apply Hstore. reflexivity.
  - apply Z.ltb_ge in Ekw.
    assert (S5 : size_sub k wt = k - wt) by (apply to_size_id; unfold size_max; lia).
    assert (Cb : cell_index c (i - 1) (k - wt) = (i - 1) * (c + 1) + (k - wt))
      by (apply cell_index_id; unfold int_max; nia).
    assert (Lb : load Vals ((i - 1) * (c + 1) + (k - wt)) w
                 = Some (tab items (Z.to_nat (i - 1)) (k - wt), w)).
    { apply load_run. simpl. apply (Hfill (i - 1) (k - wt)); lia. }
    rewrite S5, Cb, (bind_run _ _ _ _ _ La), (bind_run _ _ _ _ _ Lb).
    apply Hstore. reflexivity.
Qed.

Lemma fill_row_spec (items : list item) (c : Z) (w0 w : world) (i : Z) :
  instance_ok items c -> holds_items items (w_objs w0) ->
  1 <= i <= count items ->
  fill_inv items c w0 i 0 w ->
  exists w', fill_row c i w = Some (tt, w') /\ fill_inv items c w0 (i + 1) 0 w'.
Proof.
  intros Hok Hobjs Hi Hinv.
  pose proof (instance_count _ _ Hok) as [Hn Hc1].
  pose proof (ok_cap _ _ Hok) as Hc.
  assert (Sc : to_size c = c) by (apply to_size_id; unfold size_max, int_max in *; lia).
  unfold fill_row. rewrite Sc.
  destruct (for_up_total (fill_cell c i) (fun k => k <=? c) (c + 1)
              (fill_inv items c w0 i)
              ltac:(unfold size_max, int_max in *; lia)
              ltac:(apply Z.leb_gt; lia)
              (S (S (Z.to_nat c))) 0 w) as (w' & Hrun & Hinv'); try lia; try assumption.
  - intros j w1 Hj Hw1. apply (fill_cell_spec items c w0 w1 i j); auto; lia.
  - exists w'. split; [exact Hrun|].
    destruct Hinv' as (Eo & Ef & Et & Hsz & Hfill). repeat split; try assumption.
    intros p k' Hp Hk' Hlt. apply Hfill; lia.
Qed.

Lemma calloc_table (items : list item) (c : Z) (w0 : world) :
  instance_ok items c ->
  exists w', calloc Vals (to_size (int_mul (int_add (count items) 1) (int_add c 1))) w0
               = Some (tt, w') /\
             fill_inv items c w0 1 0 w'.
Proof.
  intros Hok.
  pose proof (instance_count _ _ Hok) as [Hn Hc1].
  pose proof Hok as [_ Hc Hcells].
  assert (E : to_size (int_mul (int_add (count items) 1) (int_add c 1))
              = (count items + 1) * (c + 1)).
  { unfold int_mul, int_add, int_max in *.
    rewrite (wrap_int_id (count items + 1)) by (unfold int_min, int_max; nia).
    rewrite (wrap_int_id (c + 1)) by (unfold int_min, int_max; lia).
    rewrite wrap_int_id by (unfold int_min, int_max; nia).
    apply to_size_id. unfold size_max. nia. }
  unfold calloc. rewrite E.
  rewrite decide_True by (unfold size_max, int_max in *; lia).
  eexists; split; [reflexivity|]. unfold fill_inv. simpl.
  repeat split.
  - rewrite length_replicate. nia.
  - intros p k' Hp Hk' Hlt. unfold cell.
    assert (p = 0) as -> by lia. simpl.
    apply elem_replicate. nia.
Qed.

Lemma dp_fill_spec (items : list item) (c : Z) (w0 : world) :
  instance_ok items c -> holds_items items (w_objs w0) ->
  exists w', dp_fill (count items) c w0 = Some (tt, w') /\
             fill_inv items c w0 (count items + 1) 0 w'.
Proof.
  intros Hok Hobjs.
  pose proof (instance_count _ _ Hok) as [Hn Hc1].
  destruct (calloc_table items c w0 Hok) as (w1 & Hcal & Hinv1).
  assert (Sn : to_size (count items) = count items)
    by (apply to_size_id; unfold size_max, int_max in *; lia).
  unfold dp_fill. rewrite (bind_run _ _ _ _ _ Hcal), Sn.
  apply (for_up_total (fill_row c) (fun i => i <=? count items) (count items + 1)
           (fun i => fill_inv items c w0 i 0)); try lia; try assumption.
  - unfold size_max, int_max in *; lia.
  - intros j w2 Hj Hw2. apply (fill_row_spec items c w0 w2 j); auto; lia.
Qed.

(** The table of a well-formed instance: it exists, has (N+1)*(C+1) cells,
    and cell (p, k) holds [tab items p k]. *)
Lemma dp_table_tab (items : list item) (c : Z) :
  instance_ok items c ->
  exists vals, dp_table items c = Some vals /\
    Z.of_nat (length vals) = (count items + 1) * (c + 1) /\
    forall p k, 0 <= p <= count items -> 0 <= k <= c ->
      cell vals c p k = Some (tab items (Z.to_nat p) k).
Proof.
  intros Hok.
  destruct (dp_fill_spec items c (start items) Hok (holds_items_objs_of items))
    as (w' & Hrun & _ & _ & _ & Hsz & Hfill).
  unfold dp_table. rewrite Hrun. exists (w_vals w'). repeat split; try assumption.
  intros p k Hp Hk. apply Hfill; lia.
Qed.

(* past that size the product (n+1)*(c+1) wraps in int: here 46341 * 46341
   exceeds INT_MAX, calloc is asked for a count it cannot serve and returns
   NULL, and the first store of the loops goes wrong *)
Lemma table_too_large : dp_table (replicate (Z.to_nat 46340) (0, 0)) 46340 = None.
Proof. vm_compute. reflexivity. Qed.

(** ** Properties of the stored values *)

Lemma total_value_app (l1 l2 : list item) :
  total_value (l1 ++ l2) = total_value l1 + total_value l2.
Proof.
  unfold total_value. induction l1 as [|x l1 IH]; simpl; [reflexivity|].
  rewrite IH. lia.
Qed.

Lemma total_value_nonneg (l : list item) : Forall item_ok l -> 0 <= total_value l.
Proof.
  unfold total_value. induction 1 as [|x l [Hx _] _ IH]; simpl; lia.
Qed.

Lemma total_value_take (items : list item) (p : nat) :
  Forall item_ok items -> total_value (take p items) <= total_value items.
Proof.
  intros Hall. rewrite <- (take_drop p items) at 2. rewrite total_value_app.
  pose proof (total_value_nonneg (drop p items) (Forall_drop _ _ _ Hall)). lia.
Qed.

Lemma total_value_take_S (items : list item) (p : nat) (v w : Z) :
  items !! p = Some (v, w) ->
  total_value (take (S p) items) = total_value (take p items) + v.
Proof.
  intros H. rewrite (take_S_r _ _ _ H), total_value_app.
  unfold total_value. simpl. lia.
Qed.

Lemma tab_S (items : list item) (p : nat) (k : Z) :
  tab items (S p) k =
    match items !! p with
    | Some (v, w) =>
        if k <? w then tab items p k
        else if tab items p k >=? int_add (tab items p (k - w)) v
             then tab items p k
             else int_add (tab items p (k - w)) v
    | None => tab items p k
    end.
Proof. reflexivity. Qed.

(* a stored value is never negative and never more than the values of the
   items considered so far, whether or not an addition wrapped *)
Lemma tab_bounds (items : list item) (p : nat) (k : Z) :
  Forall item_ok items ->
  0 <= tab items p k <= total_value (take p items) /\ tab items p k <= int_max.
Proof.
  intros Hall. revert k. induction p as [|p IH]; intros k.
  - simpl. unfold total_value, int_max. simpl. lia.
  - rewrite tab_S. destruct (items !! p) as [[v w]|] eqn:Hit.
    + destruct (item_at_ok _ _ _ _ Hall Hit) as [Hv Hw].
      rewrite (total_value_take_S _ _ _ _ Hit).
      pose proof (IH k) as [Hk Hk']. pose proof (IH (k - w)) as [Hkw Hkw'].
      destruct (k <? w); [lia|].
      destruct (int_add_nonneg (tab items p (k - w)) v ltac:(lia) Hv) as [E|E];
        pose proof (wrap_int_range (tab items p (k - w) + v)) as Hr;
        unfold int_add in *;
        destruct (tab items p k >=? wrap_int (tab items p (k - w) + v)) eqn:Hge; lia.
    + apply lookup_ge_None in Hit.
      pose proof (IH k) as [Hk Hk'].
      rewrite take_ge in Hk by lia. rewrite take_ge by lia. lia.
Qed.

(* the comparison of the source, case by case *)
Lemma tab_cases (items : list item) (p : nat) (k v w : Z) :
  Forall item_ok items -> items !! p = Some (v, w) ->
  (tab items (S p) k = tab items p k /\
     (w <= k -> tab items p (k - w) + v <= tab items p k \/
                int_max < tab items p (k - w) + v)) \/
  (w <= k /\ tab items (S p) k = tab items p (k - w) + v /\
     tab items p k < tab items p (k - w) + v <= int_max).
Proof.
  intros Hall Hit. rewrite tab_S, Hit.
  destruct (item_at_ok _ _ _ _ Hall Hit) as [Hv Hw].
  pose proof (tab_bounds items p k Hall) as [Hk Hk'].
  pose proof (tab_bounds items p (k - w) Hall) as [Hkw Hkw'].
  destruct (k <? w) eqn:Ekw.
  - left. split; [reflexivity|]. lia.
  - destruct (int_add_nonneg (tab items p (k - w)) v ltac:(lia) Hv) as [E|E];
      pose proof (wrap_int_range (tab items p (k - w) + v)) as Hr;
      fold (int_add (tab items p (k - w)) v) in Hr;
      destruct (tab items p k >=? int_add (tab items p (k - w)) v) eqn:Hge.
    + left. split; [reflexivity|]. lia.
    + right. lia.
    + left. split; [reflexivity|]. intros _. right.
      unfold int_add, wrap_int, int_max in *.
      destruct (decide (tab items p (k - w) + v <= 2147483647)); [|lia].
      rewrite Z.mod_small in E by lia. lia.
    + lia.
Qed.

Lemma tab_mono_items (items : list item) (p : nat) (k : Z) :
  Forall item_ok items -> tab items p k <= tab items (S p) k.
Proof.
  intros Hall. destruct (items !! p) as [[v w]|] eqn:Hit.
  - destruct (tab_cases items p k v w Hall Hit) as [[E _]|(_ & E & H)]; lia.
  - rewrite tab_S, Hit. lia.
Qed.

(** ** Selections and the optimum *)

Lemma best_unique (items : list item) (c m1 m2 : Z) :
  best items c m1 -> best items c m2 -> m1 = m2.
Proof.
  intros [(s1 & L1 & W1 & V1) U1] [(s2 & L2 & W2 & V2) U2].
  pose proof (U1 s2 L2 W2). pose proof (U2 s1 L1 W1). lia.
Qed.

Lemma picked_value_snoc (items : list item) (sel : list bool) (v w : Z) (b : bool) :
  length sel = length items ->
  picked_value (items ++ [(v, w)]) (sel ++ [b]) =
    picked_value items sel + (if b then v else 0).
Proof.
  revert sel. induction items as [|[v0 w0] items IH]; intros [|b0 sel] H;
    simpl in *; try discriminate.
  - lia.
  - rewrite IH by lia. lia.
Qed.

Lemma picked_weight_snoc (items : list item) (sel : list bool) (v w : Z) (b : bool) :
  length sel = length items ->
  picked_weight (items ++ [(v, w)]) (sel ++ [b]) =
    picked_weight items sel + (if b then w else 0).
Proof.
  revert sel. induction items as [|[v0 w0] items IH]; intros [|b0 sel] H;
    simpl in *; try discriminate.
  - lia.
  - rewrite IH by lia. lia.
Qed.

Lemma picked_weight_nonneg (items : list item) (sel : list bool) :
  Forall item_ok items -> 0 <= picked_weight items sel.
Proof.
  intros Hall. revert sel.
  induction Hall as [|[v w] items [_ Hw] _ IH]; intros [|b sel]; simpl; try lia.
  simpl in Hw. pose proof (IH sel). destruct b; lia.
Qed.

Lemma snoc_selection (sel : list bool) (n : nat) :
  length sel = S n -> exists sel' b, sel = sel' ++ [b] /\ length sel' = n.
Proof.
  intros H. destruct (decide (sel = [])) as [->|Hne]; [discriminate|].
  destruct (exists_last Hne) as (sel' & b & ->).
  exists sel', b. split; [reflexivity|].
  rewrite length_app in H. simpl in H. lia.
Qed.

Lemma selections_complete (sel : list bool) : In sel (selections (length sel)).
Proof.
  induction sel as [|b sel IH]; simpl; [auto|].
  apply in_app_iff. destruct b; [right|left]; apply in_map; exact IH.
Qed.

Lemma foldr_max_ge (l : list Z) (x : Z) : In x l -> x <= foldr Z.max 0 l.
Proof.
  induction l as [|y l IH]; simpl; [tauto|].
  intros [->|H]; [lia|]. specialize (IH H). lia.
Qed.

Lemma foldr_max_in (l : list Z) : foldr Z.max 0 l = 0 \/ In (foldr Z.max 0 l) l.
Proof.
  induction l as [|y l IH]; simpl; [auto|].
  destruct (Z.max_spec y (foldr Z.max 0 l)) as [[_ ->]|[_ ->]]; [|auto].
  destruct IH as [->|IH]; [|auto].
  destruct (Z.max_spec y 0) as [[H E]|[H E]]; lia || auto.
Qed.

Lemma picked_none (items : list item) :
  picked_value items (replicate (length items) false) = 0 /\
  picked_weight items (replicate (length items) false) = 0.
Proof.
  induction items as [|[v w] items [IHv IHw]]; simpl; [auto|]. lia.
Qed.

Lemma brute_force_best (items : list item) (c : Z) :
  0 <= c -> best items c (brute_force items c).
Proof.
  intros Hc. unfold brute_force.
  set (feasible := filter (fun sel => picked_weight items sel <= c)
                     (selections (length items))).
  assert (Hin : forall sel, In sel feasible <->
            In sel (selections (length items)) /\ picked_weight items sel <= c).
  { intros sel. unfold feasible.
    rewrite <- !list_elem_of_In, list_elem_of_filter. tauto. }
  assert (Hlen : forall n sel, In sel (selections n) -> length sel = n).
  { induction n as [|n IH]; simpl; intros sel H.
    - destruct H as [<-|[]]. reflexivity.
    - apply in_app_iff in H.
      destruct H as [H|H]; apply in_map_iff in H;
        destruct H as (s' & <- & H); simpl; f_equal; apply IH; exact H. }
  split.
  - destruct (foldr_max_in (map (picked_value items) feasible)) as [E|E].
    + rewrite E. exists (replicate (length items) false).
      destruct (picked_none items) as [Ev Ew].
      rewrite length_replicate, Ev, Ew. auto.
    + apply in_map_iff in E. destruct E as (sel & E & Hsel).
      apply Hin in Hsel. destruct Hsel as [Hsel Hw].
      exists sel. split; [apply Hlen; exact Hsel|]. split; [exact Hw|exact E].
  - intros sel Hl Hw. apply foldr_max_ge, in_map, Hin. split; [|exact Hw].
    rewrite <- Hl. apply selections_complete.
Qed.

Lemma picked_value_le_total (items : list item) (sel : list bool) :
  Forall item_ok items -> picked_value items sel <= total_value items.
Proof.
  intros Hall. revert sel. unfold total_value.
  induction Hall as [|[v w] items [Hv _] _ IH]; intros [|b sel]; simpl in *; try lia.
  - pose proof (IH []). destruct items as [|[? ?] ?]; simpl in *; lia.
  - pose proof (IH sel). destruct b; lia.
Qed.

(* the optimum is at most the value of all items together *)
Lemma brute_force_le_total (items : list item) (c : Z) :
  Forall item_ok items -> 0 <= c -> brute_force items c <= total_value items.
Proof.
  intros Hall Hc. destruct (brute_force_best items c Hc) as [(sel & _ & _ & <-) _].
  apply picked_value_le_total. exact Hall.
Qed.

Lemma picked_value_app (l1 l2 : list item) (s1 s2 : list bool) :
  length s1 = length l1 ->
  picked_value (l1 ++ l2) (s1 ++ s2) = picked_value l1 s1 + picked_value l2 s2.
Proof.
  revert s1. induction l1 as [|[v w] l1 IH]; intros [|b s1] H; simpl in *;
    try discriminate; [reflexivity|].
  rewrite IH by lia. lia.
Qed.

Lemma picked_weight_app (l1 l2 : list item) (s1 s2 : list bool) :
  length s1 = length l1 ->
  picked_weight (l1 ++ l2) (s1 ++ s2) = picked_weight l1 s1 + picked_weight l2 s2.
Proof.
  revert s1. induction l1 as [|[v w] l1 IH]; intros [|b s1] H; simpl in *;
    try discriminate; [reflexivity|].
  rewrite IH by lia. lia.
Qed.

(* a selection among the first p items is a selection among all of them *)
Lemma prefix_le_brute_force (items : list item) (c : Z) (p : nat) (sel : list bool) :
  0 <= c -> length sel = length (take p items) ->
  picked_weight (take p items) sel <= c ->
  picked_value (take p items) sel <= brute_force items c.
Proof.
  intros Hc Hlen Hw.
  destruct (brute_force_best items c Hc) as [_ Hub].
  destruct (picked_none (drop p items)) as [Ev Ew].
  set (rest := replicate (length (drop p items)) false) in *.
  assert (Hv : picked_value items (sel ++ rest) = picked_value (take p items) sel).
  { rewrite <- (take_drop p items) at 1. rewrite picked_value_app, Ev by exact Hlen. lia. }
  assert (Hwt : picked_weight items (sel ++ rest) = picked_weight (take p items) sel).
  { rewrite <- (take_drop p items) at 1. rewrite picked_weight_app, Ew by exact Hlen. lia. }
  rewrite <- Hv. apply Hub; [|lia].
  unfold rest. rewrite length_app, length_replicate, Hlen, <- length_app, take_drop.
  reflexivity.
Qed.

(* when the optimum of the instance is at most INT_MAX, every cell holds the
   optimum for its prefix and its capacity *)
Lemma tab_best (items : list item) (c : Z) (p : nat) (k : Z) :
  Forall item_ok items -> brute_force items c <= int_max ->
  (p <= length items)%nat -> 0 <= k <= c ->
  best (take p items) k (tab items p k).
Proof.
  intros Hall Hfit. revert k. induction p as [|p IH]; intros k Hp Hk.
  - simpl. split.
    + exists []. simpl. split; [reflexivity|]. split; [lia|reflexivity].
    + intros [|b sel] H; simpl in *; [lia|discriminate].
  - destruct (lookup_lt_is_Some_2 items p ltac:(lia)) as [[v w] Hit].
    destruct (item_at_ok _ _ _ _ Hall Hit) as [Hv Hw].
    assert (Hlen : length (take p items) = p) by (rewrite length_take; lia).
    assert (Hpre : Forall item_ok (take p items)) by (apply Forall_take; exact Hall).
    destruct (IH k ltac:(lia) Hk) as [(s0 & L0 & W0 & V0) U0].
    (* taking the item on top of a best selection for k - w stays within int *)
    assert (Hinc : w <= k ->
              best (take p items) (k - w) (tab items p (k - w)) /\
              tab items p (k - w) + v <= int_max).
    { intros Hwk. pose proof (IH (k - w) ltac:(lia) ltac:(lia)) as Hb.
      split; [exact Hb|]. destruct Hb as [(s1 & L1 & W1 & V1) _].
      pose proof (prefix_le_brute_force items c (S p) (s1 ++ [true]) ltac:(lia)) as Hle.
      rewrite (take_S_r _ _ _ Hit) in Hle.
      rewrite picked_weight_snoc, picked_value_snoc, !length_app in Hle by exact L1.
      simpl in Hle. specialize (Hle ltac:(lia) ltac:(lia)). lia. }
    rewrite (take_S_r _ _ _ Hit).
    destruct (tab_cases items p k v w Hall Hit) as [[E Hno]|(Hwk & E & Hlt)]; rewrite E.
    + (* the cell keeps table[p][k] *)
      split.
      * exists (s0 ++ [false]). rewrite !length_app. simpl.
        rewrite picked_weight_snoc, picked_value_snoc by exact L0.
        repeat split; lia.
      * intros sel Hsel. rewrite length_app in Hsel. simpl in Hsel.
        destruct (snoc_selection sel p ltac:(lia)) as (sel' & b & -> & Hl').
        rewrite picked_weight_snoc, picked_value_snoc by lia.
        pose proof (picked_weight_nonneg (take p items) sel' Hpre).
        pose proof (U0 sel' ltac:(lia)).
        destruct b; [|lia]. intros Hfeas.
        destruct (Hinc ltac:(lia)) as [[_ U1] Hmax].
        pose proof (U1 sel' ltac:(lia) ltac:(lia)).
        destruct (Hno ltac:(lia)); lia.
    + (* the cell takes the item *)
      destruct (Hinc Hwk) as [[(s1 & L1 & W1 & V1) U1] _].
      split.
      * exists (s1 ++ [true]). rewrite !length_app. simpl.
        rewrite picked_weight_snoc, picked_value_snoc by exact L1.
        repeat split; lia.
      * intros sel Hsel. rewrite length_app in Hsel. simpl in Hsel.
        destruct (snoc_selection sel p ltac:(lia)) as (sel' & b & -> & Hl').
        rewrite picked_weight_snoc, picked_value_snoc by lia.
        pose proof (U0 sel' ltac:(lia)). pose proof (U1 sel' ltac:(lia)).
        destruct b; lia.
Qed.

(* then no addition wraps and the cells follow the recurrence exactly *)
Lemma tab_exact (items : list item) (c : Z) (p : nat) (k v w : Z) :
  Forall item_ok items -> brute_force items c <= int_max ->
  items !! p = Some (v, w) -> 0 <= k <= c ->
  tab items (S p) k =
    if k <? w then tab items p k
    else Z.max (tab items p k) (tab items p (k - w) + v).
Proof.
  intros Hall Hfit Hit Hk.
  destruct (item_at_ok _ _ _ _ Hall Hit) as [Hv Hw].
  pose proof (lookup_lt_Some _ _ _ Hit) as Hp.
  destruct (k <? w) eqn:Ekw.
  - apply Z.ltb_lt in Ekw.
    destruct (tab_cases items p k v w Hall Hit) as [[E _]|(Hwk & _)]; [exact E|lia].
  - apply Z.ltb_ge in Ekw.
    destruct (tab_best items c p (k - w) Hall Hfit ltac:(lia) ltac:(lia))
      as [(s1 & L1 & W1 & V1) _].
    pose proof (prefix_le_brute_force items c (S p) (s1 ++ [true]) ltac:(lia)) as Hle.
    rewrite (take_S_r _ _ _ Hit) in Hle.
    rewrite picked_weight_snoc, picked_value_snoc, !length_app in Hle by exact L1.
    simpl in Hle. specialize (Hle ltac:(lia) ltac:(lia)).
    destruct (tab_cases items p k v w Hall Hit) as [[E Hno]|(_ & E & Hlt)]; rewrite E.
    + destruct (Hno Ekw); lia.
    + lia.
Qed.

(* and more capacity never lowers a cell *)
Lemma tab_mono_cap (items : list item) (c : Z) (p : nat) (k k' : Z) :
  Forall item_ok items -> brute_force items c <= int_max ->
  (p <= length items)%nat -> 0 <= k -> k <= k' -> k' <= c ->
  tab items p k <= tab items p k'.
Proof.
  intros Hall Hfit Hp Hk Hkk Hkc.
  destruct (tab_best items c p k Hall Hfit Hp ltac:(lia)) as [(s & L & W & <-) _].
  destruct (tab_best items c p k' Hall Hfit Hp ltac:(lia)) as [_ U].
  apply U; [exact L|lia].
Qed.

(** ** The table: optimum, recurrence, monotonicity *)

(** C1, as the code has it: when the values and weights are non-negative
    ints, the capacity is non-negative, the number of cells (N+1)*(C+1) is an
    int and the maximum total value over all 2^N selections of total weight
    at most C is itself at most INT_MAX, dp_knapsack builds its table and the
    cell table[N][C], vals[n*(c+1)+c], holds that maximum. *)
Theorem dp_table_optimum (items : list item) (c : Z) :
  instance_ok items c -> brute_force items c <= int_max ->
  exists vals, dp_table items c = Some vals /\
    cell vals c (count items) c = Some (brute_force items c).
Proof.
  intros Hok Htot. pose proof Hok as [Hall Hc _].
  destruct (dp_table_tab items c Hok) as (vals & Hrun & _ & Hcell).
  exists vals. split; [exact Hrun|].
  rewrite Hcell by (unfold count; lia). f_equal.
  apply (best_unique items c); [|apply brute_force_best; exact Hc].
  unfold count. rewrite Nat2Z.id.
  rewrite <- (firstn_all items) at 1.
  apply (tab_best items c); auto; lia.
Qed.

Lemma dp_table_optimum_witness :
  exists vals, dp_table [(60, 10); (100, 20); (120, 30)] 50 = Some vals /\
    cell vals 50 3 50 = Some (brute_force [(60, 10); (100, 20); (120, 30)] 50).
Proof.
  apply (dp_table_optimum [(60, 10); (100, 20); (120, 30)] 50).
  - split; [repeat constructor; simpl; unfold int_max; lia | lia | vm_compute; discriminate].
  - vm_compute. discriminate.
Defined.

(** C1 fails as stated: two items of value 2^30 and weight 0 with capacity 0
    are non-negative ints, the best selection takes both and is worth 2^31,
    which no int holds; table[2][0] is 2^30. *)
Lemma dp_table_optimum_overflow :
  instance_ok [(1073741824, 0); (1073741824, 0)] 0 /\
  dp_table [(1073741824, 0); (1073741824, 0)] 0 = Some [0; 1073741824; 1073741824] /\
  brute_force [(1073741824, 0); (1073741824, 0)] 0 = 2147483648 /\
  ~ (exists vals, dp_table [(1073741824, 0); (1073741824, 0)] 0 = Some vals /\
       cell vals 0 (count [(1073741824, 0); (1073741824, 0)]) 0
         = Some (brute_force [(1073741824, 0); (1073741824, 0)] 0)).
Proof.
  split; [|split; [|split]].
  - split; [repeat constructor; simpl; unfold int_max; lia | lia | vm_compute; discriminate].
  - vm_compute. reflexivity.
  - vm_compute. reflexivity.
  - intros (vals & Hrun & Hcell).
    vm_compute in Hrun. injection Hrun as <-.
    vm_compute in Hcell. discriminate.
Qed.

(** C2, as the code has it: under the conditions of C1 (non-negative int
    values and weights, C >= 0, (N+1)*(C+1) an int, the best total value
    within capacity C at most INT_MAX) the table satisfies table[0][k] = 0,
    table[p][k] = table[p-1][k] when the weight of item p exceeds k, and
    otherwise table[p][k] = max(table[p-1][k], table[p-1][k - weight] + value). *)
Theorem dp_table_recurrence (items : list item) (c : Z) :
  instance_ok items c -> brute_force items c <= int_max ->
  exists vals, dp_table items c = Some vals /\ recurrence_holds items c vals.
Proof.
  intros Hok Htot. pose proof Hok as [Hall Hc _].
  destruct (dp_table_tab items c Hok) as (vals & Hrun & _ & Hcell).
  exists vals. split; [exact Hrun|]. split.
  - intros k Hk. rewrite Hcell by (unfold count; lia). reflexivity.
  - intros p k v w Hp Hk Hit.
    destruct (item_at_ok _ _ _ _ Hall Hit) as [Hv Hw].
    exists (tab items (Z.to_nat (p - 1)) k).
    rewrite !Hcell by lia.
    replace (Z.to_nat p) with (S (Z.to_nat (p - 1))) by lia.
    rewrite (tab_exact items c _ k v w Hall Htot Hit Hk).
    split; [reflexivity|]. split.
    + intros Hlt. rewrite (proj2 (Z.ltb_lt k w) Hlt). reflexivity.
    + intros Hge. rewrite (proj2 (Z.ltb_ge k w) Hge).
      exists (tab items (Z.to_nat (p - 1)) (k - w)).
      rewrite Hcell by lia. auto.
Qed.

Lemma dp_table_recurrence_witness :
  exists vals, dp_table [(60, 10); (100, 20)] 30 = Some vals /\
    recurrence_holds [(60, 10); (100, 20)] 30 vals.
Proof.
  apply (dp_table_recurrence [(60, 10); (100, 20)] 30).
  - split; [repeat constructor; simpl; unfold int_max; lia | lia | vm_compute; discriminate].
  - vm_compute. discriminate.
Defined.

(** C2 fails as stated: with two items of value 2^30 and weight 0 and
    capacity 0, table[1][0] is 2^30 and the recurrence asks for
    table[2][0] = max(2^30, 2^30 + 2^30); the addition wraps and the table
    holds 2^30. *)
Lemma dp_table_recurrence_overflow :
  instance_ok [(1073741824, 0); (1073741824, 0)] 0 /\
  ~ (exists vals, dp_table [(1073741824, 0); (1073741824, 0)] 0 = Some vals /\
       recurrence_holds [(1073741824, 0); (1073741824, 0)] 0 vals).
Proof.
  split.
  - split; [repeat constructor; simpl; unfold int_max; lia | lia | vm_compute; discriminate].
  - intros (vals & Hrun & _ & Hrec).
    vm_compute in Hrun. injection Hrun as <-.
    destruct (Hrec 2 0 1073741824 0) as (prev & Hprev & _ & Hinc);
      [vm_compute; split; discriminate | lia | reflexivity |].
    destruct (Hinc ltac:(lia)) as (inc & Hi & Hcur).
    vm_compute in Hprev, Hi, Hcur.
    injection Hprev as <-. injection Hi as <-. discriminate.
Qed.

(** C4, as the code has it: under the conditions of C1 (non-negative int
    values and weights, C >= 0, (N+1)*(C+1) an int, the best total value
    within capacity C at most INT_MAX) the table is monotone:
    table[p][k] <= table[p][k+1] for p in [0,N] and k in [0,C-1], and
    table[p][k] <= table[p+1][k] for p in [0,N-1] and k in [0,C]. *)
Theorem dp_table_monotone (items : list item) (c : Z) :
  instance_ok items c -> brute_force items c <= int_max ->
  exists vals, dp_table items c = Some vals /\ monotone (count items) c vals.
Proof.
  intros Hok Htot. pose proof Hok as [Hall Hc _].
  destruct (dp_table_tab items c Hok) as (vals & Hrun & _ & Hcell).
  exists vals. split; [exact Hrun|]. split.
  - intros p k Hp Hk. do 2 eexists.
    rewrite !Hcell by lia. split; [reflexivity|]. split; [reflexivity|].
    apply (tab_mono_cap items c); auto; unfold count in *; lia.
  - intros p k Hp Hk. do 2 eexists.
    rewrite !Hcell by lia. split; [reflexivity|]. split; [reflexivity|].
    replace (Z.to_nat (p + 1)) with (S (Z.to_nat p)) by lia.
    apply tab_mono_items; exact Hall.
Qed.

Lemma dp_table_monotone_witness :
  exists vals, dp_table [(60, 10); (100, 20)] 30 = Some vals /\ monotone 2 30 vals.
Proof.
  apply (dp_table_monotone [(60, 10); (100, 20)] 30).
  - split; [repeat constructor; simpl; unfold int_max; lia | lia | vm_compute; discriminate].
  - vm_compute. discriminate.
Defined.

(** C4 fails as stated: with items (2^30, 1) and (2^30 + 5, 0) and capacity
    1, the second item fits next to nothing in column 0 but wraps on top of
    the first in column 1, so table[2][0] = 2^30 + 5 > table[2][1] = 2^30. *)
Lemma dp_table_monotone_overflow :
  instance_ok [(1073741824, 1); (1073741829, 0)] 1 /\
  ~ (exists vals, dp_table [(1073741824, 1); (1073741829, 0)] 1 = Some vals /\
       monotone 2 1 vals).
Proof.
  split.
  - split; [repeat constructor; simpl; unfold int_max; lia | lia | vm_compute; discriminate].
  - intros (vals & Hrun & Hcap & _).
    vm_compute in Hrun. injection Hrun as <-.
    destruct (Hcap 2 0) as (a & b & Ha & Hb & Hle); [lia..|].
    vm_compute in Ha, Hb. injection Ha as <-. injection Hb as <-. lia.
Qed.

(** ** The backtrace *)

Lemma holds_items_insert_flag (items : list item) (objs : list Z) (j : nat) (x : Z) :
  holds_items items objs -> holds_items items (<[(3 * j + 2)%nat := x]> objs).
Proof.
  intros [Hlen Hobjs]. split; [rewrite length_insert; exact Hlen|].
  intros i v w Hit. destruct (Hobjs i v w Hit) as [Ev Ew].
  rewrite !list_lookup_insert_ne by lia. auto.
Qed.

Lemma bt_world_marked (items : list item) (c i : Z) (w : world) :
  1 <= i -> bt_world items c w -> bt_world items c (marked i w).
Proof.
  intros Hi (Hobjs & Hsz & Hcell). unfold bt_world, marked. simpl.
  split; [|auto].
  replace (Z.to_nat ((i - 1) * 3 + 2)) with (3 * Z.to_nat (i - 1) + 2)%nat by lia.
  apply holds_items_insert_flag. exact Hobjs.
Qed.

Lemma bt_body_spec (items : list item) (c : Z) (w : world) (i k v wt : Z) :
  instance_ok items c -> bt_world items c w ->
  1 <= i <= count items -> 0 <= k <= c ->
  items !! Z.to_nat (i - 1) = Some (v, wt) ->
  (tab items (Z.to_nat i) k = tab items (Z.to_nat (i - 1)) k /\
     bt_body c i k w = Some (k, w)) \/
  (tab items (Z.to_nat i) k <> tab items (Z.to_nat (i - 1)) k /\
     wt <= k /\
     tab items (Z.to_nat i) k = tab items (Z.to_nat (i - 1)) (k - wt) + v /\
     tab items (Z.to_nat (i - 1)) k < tab items (Z.to_nat (i - 1)) (k - wt) + v /\
     bt_body c i k w = Some (k - wt, marked i w)).
Proof.
  intros Hok ([Hlen Hobjs] & Hsz & Hcell) Hi Hk Hit.
  pose proof (instance_count _ _ Hok) as [Hn Hc1].
  pose proof Hok as [Hall Hc Hcells].
  destruct (item_at_ok _ _ _ _ Hall Hit) as [Hv Hw].
  destruct (Hobjs _ _ _ Hit) as [Ev Ew].
  pose proof (cell_bound (count items) c i k ltac:(lia) Hk) as Bi.
  pose proof (cell_bound (count items) c (i - 1) k ltac:(lia) Hk) as Bp.
  unfold int_max in *.
  assert (S0 : to_size k = k) by (apply to_size_id; unfold size_max; lia).
  assert (S1 : size_sub i 1 = i - 1) by (apply to_size_id; unfold size_max; lia).
  assert (S2 : size_mul (i - 1) 3 = (i - 1) * 3) by (apply to_size_id; unfold size_max; lia).
  assert (S3 : size_add ((i - 1) * 3) 1 = (i - 1) * 3 + 1)
    by (apply to_size_id; unfold size_max; lia).
  assert (S4 : size_add ((i - 1) * 3) 2 = (i - 1) * 3 + 2)
    by (apply to_size_id; unfold size_max; lia).
  assert (Ci : cell_index c i k = i * (c + 1) + k)
    by (apply cell_index_id; unfold int_max; lia).
  assert (Cp : cell_index c (i - 1) k = (i - 1) * (c + 1) + k)
    by (apply cell_index_id; unfold int_max; lia).
  assert (La : load Vals (i * (c + 1) + k) w = Some (tab items (Z.to_nat i) k, w)).
  { apply load_run. simpl. apply (Hcell i k); lia. }
  assert (Lb : load Vals ((i - 1) * (c + 1) + k) w
               = Some (tab items (Z.to_nat (i - 1)) k, w)).
  { apply load_run. simpl. apply (Hcell (i - 1) k); lia. }
  unfold bt_body. rewrite S0, S1, S2, S3, S4, Ci, Cp.
  rewrite (bind_run _ _ _ _ _ La), (bind_run _ _ _ _ _ Lb).
  destruct (tab items (Z.to_nat i) k =? tab items (Z.to_nat (i - 1)) k) eqn:Eab.
  - left. apply Z.eqb_eq in Eab. simpl. auto.
  - right. apply Z.eqb_neq in Eab. simpl.
    assert (Hcase := tab_cases items (Z.to_nat (i - 1)) k v wt Hall Hit).
    replace (S (Z.to_nat (i - 1))) with (Z.to_nat i) in Hcase by lia.
    destruct Hcase as [[E _]|(Hwk & E & Hlt)]; [contradiction|].
    assert (St : store Objs ((i - 1) * 3 + 2) 1 w = Some (tt, marked i w))
      by (apply store_run; simpl; unfold count in *; lia).
    rewrite (bind_run _ _ _ _ _ St).
    assert (Lw : load Objs ((i - 1) * 3 + 1) (marked i w) = Some (wt, marked i w)).
    { apply load_run. simpl. apply elem_Some. split; [lia|].
      rewrite list_lookup_insert_ne by lia. rewrite <- Ew. f_equal. lia. }
    rewrite (bind_run _ _ _ _ _ Lw).
    unfold ret, int_sub. rewrite wrap_int_id by (unfold int_min, int_max; lia).
    repeat split; try assumption; lia.
Qed.

Section down_loops.
Variable body : Z -> Z -> M Z.
Variable Inv : Z -> Z -> world -> Prop.

(* total correctness of the downward loop *)
Lemma for_down_total (fuel : nat) (i k : Z) (w : world) :
  0 <= i <= size_max ->
  (forall j k0 w0, 0 < j <= i -> Inv j k0 w0 ->
     exists k1 w1, body j k0 w0 = Some (k1, w1) /\ Inv (j - 1) k1 w1) ->
  (Z.to_nat i < fuel)%nat ->
  Inv i k w ->
  exists k' w', for_down fuel i body k w = Some (k', w') /\ Inv 0 k' w'.
Proof.
  revert i k w. induction fuel as [|fuel IH]; intros i k w Hi Hbody Hfuel HI.
  - lia.
  - simpl. destruct (0 <? i) eqn:E.
    + apply Z.ltb_lt in E.
      destruct (Hbody i k w ltac:(lia) HI) as (k1 & w1 & Hb & HI1).
      rewrite (bind_run _ _ _ _ _ Hb).
      assert (Hs : size_sub i 1 = i - 1) by (apply to_size_id; lia).
      rewrite Hs. apply IH; try lia; auto.
      intros j k0 w0 Hj. apply Hbody. lia.
    + apply Z.ltb_ge in E. assert (i = 0) as -> by lia.
      do 2 eexists. split; [reflexivity|exact HI].
Qed.

(* what holds of the result whenever the loop returns one *)
Lemma for_down_partial (fuel : nat) (i k : Z) (w : world) (k' : Z) (w' : world) :
  0 <= i <= size_max ->
  (forall j k0 w0 k1 w1, 0 < j <= i -> Inv j k0 w0 ->
     body j k0 w0 = Some (k1, w1) -> Inv (j - 1) k1 w1) ->
  Inv i k w ->
  for_down fuel i body k w = Some (k', w') ->
  Inv 0 k' w'.
Proof.
  revert i k w. induction fuel as [|fuel IH]; intros i k w Hi Hbody HI Hrun.
  - discriminate.
  - simpl in Hrun. destruct (0 <? i) eqn:E.
    + apply Z.ltb_lt in E.
      apply bind_Some in Hrun. destruct Hrun as (k1 & w1 & Hb & Hrun).
      assert (Hs : size_sub i 1 = i - 1) by (apply to_size_id; lia).
      rewrite Hs in Hrun.
      apply (IH (i - 1) k1 w1); try lia; auto.
      * intros j k0 w0 k2 w2 Hj. apply Hbody. lia.
      * apply (Hbody i k w); auto; lia.
    + apply Z.ltb_ge in E. assert (i = 0) as -> by lia.
      injection Hrun as <- <-. exact HI.
Qed.
End down_loops.

(** ** Sums over the selection flags *)

Lemma sum_upto_ext (n : nat) (g g' : nat -> Z) :
  (forall i, (i < n)%nat -> g' i = g i) -> sum_upto n g' = sum_upto n g.
Proof.
  induction n as [|n IH]; intros H; simpl; [reflexivity|].
  rewrite IH, H by (intros; try apply H; lia). reflexivity.
Qed.

Lemma sum_upto_bump (n : nat) (g g' : nat -> Z) (j : nat) (d : Z) :
  (j < n)%nat -> g' j = g j + d ->
  (forall i, (i < n)%nat -> i <> j -> g' i = g i) ->
  sum_upto n g' = sum_upto n g + d.
Proof.
  induction n as [|n IH]; intros Hj Hd H; [lia|]. simpl.
  destruct (decide (j = n)) as [->|Hne].
  - rewrite (sum_upto_ext n g g') by (intros; apply H; lia). lia.
  - rewrite IH, (H n) by (intros; try apply H; lia). lia.
Qed.

Lemma sum_upto_zero (n : nat) (g : nat -> Z) :
  (forall i, (i < n)%nat -> g i = 0) -> sum_upto n g = 0.
Proof.
  induction n as [|n IH]; intros H; simpl; [reflexivity|].
  rewrite IH, H by (intros; try apply H; lia). reflexivity.
Qed.

Lemma field_insert_flag (objs : list Z) (j : nat) (x : Z) (i f : nat) :
  (f < 3)%nat -> (3 * j + 2 < length objs)%nat ->
  field (<[(3 * j + 2)%nat := x]> objs) i f =
    if decide (i = j /\ f = 2%nat) then x else field objs i f.
Proof.
  intros Hf Hlen. unfold field. destruct (decide _) as [[-> ->]|Hne].
  - rewrite list_lookup_insert_eq by exact Hlen. reflexivity.
  - rewrite list_lookup_insert_ne by lia. reflexivity.
Qed.

Lemma field_holds (items : list item) (objs : list Z) (i : nat) (v w : Z) :
  holds_items items objs -> items !! i = Some (v, w) ->
  field objs i 0 = v /\ field objs i 1 = w.
Proof.
  intros [_ H] Hit. destruct (H i v w Hit) as [Ev Ew]. unfold field.
  rewrite Nat.add_0_r, Ev, Ew. auto.
Qed.

Lemma bt_inv_step (items : list item) (c : Z) (i k : Z) (w : world) :
  instance_ok items c -> 0 < i ->
  bt_inv items c i k w ->
  exists k' w', bt_body c i k w = Some (k', w') /\ bt_inv items c (i - 1) k' w'.
Proof.
  intros Hok Hi (Hw & Hk & Hin & Hflag & Hlow & Hval & Hwt).
  destruct (item_at items i ltac:(lia)) as (v & wt & Hit).
  destruct (bt_body_spec items c w i k v wt Hok Hw ltac:(lia) Hk Hit)
    as [[E Hrun]|(Hne & Hwk & E & _ & Hrun)].
  - exists k, w. split; [exact Hrun|].
    split; [exact Hw|].
    repeat split; try assumption; try lia.
    intros j Hj. apply Hlow. lia.
  - exists (k - wt), (marked i w). split; [exact Hrun|].
    pose proof (ok_items _ _ Hok) as Hall.
    destruct (item_at_ok _ _ _ _ Hall Hit) as [Hv Hwt0].
    destruct Hw as (Hobjs & Hsz & Hcell).
    destruct (field_holds _ _ _ _ _ Hobjs Hit) as [Fv Fw].
    assert (Hlen : (3 * Z.to_nat (i - 1) + 2 < length (w_objs w))%nat).
    { destruct Hobjs as [-> _]. unfold count in *. lia. }
    assert (Hj : (Z.to_nat (i - 1) < length items)%nat) by (unfold count in *; lia).
    assert (Eobjs : w_objs (marked i w) = <[(3 * Z.to_nat (i - 1) + 2)%nat := 1]> (w_objs w)).
    { simpl. f_equal. lia. }
    split; [apply bt_world_marked; [lia|]; exact (conj Hobjs (conj Hsz Hcell))|].
    rewrite Eobjs. repeat split; try lia.
    + intros j Hjn. rewrite field_insert_flag by (exact Hlen || lia).
      destruct (decide _); [auto|apply Hflag; exact Hjn].
    + intros j Hjn. rewrite field_insert_flag by (exact Hlen || lia).
      destruct (decide _) as [[-> _]|_]; [lia|apply Hlow; lia].
    + unfold selected_value in *.
      rewrite (sum_upto_bump (length items) (fun j => field (w_objs w) j 0 * field (w_objs w) j 2)
                 _ (Z.to_nat (i - 1)) v Hj).
      * rewrite Hval, E. lia.
      * rewrite !field_insert_flag by (exact Hlen || lia).
        rewrite decide_False by lia. rewrite decide_True by auto.
        rewrite (Hlow (Z.to_nat (i - 1))) by lia. lia.
      * intros j Hjn Hjne. rewrite !field_insert_flag by (exact Hlen || lia).
        rewrite !decide_False by lia. reflexivity.
    + unfold selected_weight in *.
      rewrite (sum_upto_bump (length items) (fun j => field (w_objs w) j 1 * field (w_objs w) j 2)
                 _ (Z.to_nat (i - 1)) wt Hj).
      * rewrite Hwt. lia.
      * rewrite !field_insert_flag by (exact Hlen || lia).
        rewrite decide_False by lia. rewrite decide_True by auto.
        rewrite (Hlow (Z.to_nat (i - 1))) by lia. lia.
      * intros j Hjn Hjne. rewrite !field_insert_flag by (exact Hlen || lia).
        rewrite !decide_False by lia. reflexivity.
Qed.

Lemma not_marks_same (i : Z) (w : world) : ~ marks i w w.
Proof.
  unfold marks. intros H. apply (f_equal length) in H.
  rewrite length_app in H. simpl in H. lia.
Qed.

Lemma marks_marked (i : Z) (w : world) : marks i w (marked i w).
Proof. reflexivity. Qed.

(* the state dp_backtrace is called in *)
Lemma fill_bt_inv (items : list item) (c : Z) :
  instance_ok items c ->
  exists w1, dp_fill (count items) c (start items) = Some (tt, w1) /\
             bt_inv items c (count items) c w1.
Proof.
  intros Hok.
  destruct (dp_fill_spec items c (start items) Hok (holds_items_objs_of items))
    as (w1 & Hrun & Eo & _ & _ & Hsz & Hfill).
  simpl in Eo.
  assert (Hflag : forall j, (j < length items)%nat -> field (w_objs w1) j 2 = 0).
  { intros j Hj. destruct (lookup_lt_is_Some_2 items j Hj) as [[v w] Hit].
    unfold field. rewrite Eo.
    destruct (objs_of_lookup items j v w Hit) as (_ & _ & ->). reflexivity. }
  exists w1. split; [exact Hrun|].
  pose proof (ok_cap _ _ Hok). unfold count in *.
  split.
  { split; [rewrite Eo; apply holds_items_objs_of|]. split; [exact Hsz|].
    intros p k Hp Hk. unfold count in Hp. apply Hfill; lia. }
  repeat split; try (unfold count; lia).
  - intros j Hj. left. apply Hflag. exact Hj.
  - intros j Hj. apply Hflag. lia.
  - unfold selected_value. rewrite Nat2Z.id.
    rewrite sum_upto_zero; [lia|]. intros j Hj. rewrite Hflag by exact Hj. lia.
  - unfold selected_weight.
    rewrite sum_upto_zero; [lia|]. intros j Hj. rewrite Hflag by exact Hj. lia.
Qed.

Lemma dp_backtrace_spec (items : list item) (c : Z) (w1 : world) :
  instance_ok items c -> bt_inv items c (count items) c w1 ->
  exists k w2, dp_backtrace (count items) c w1 = Some (tt, w2) /\ bt_inv items c 0 k w2.
Proof.
  intros Hok Hinv.
  pose proof (instance_count _ _ Hok) as [Hn _].
  assert (Sn : to_size (count items) = count items)
    by (apply to_size_id; unfold size_max, int_max in *; lia).
  destruct (for_down_total (bt_body c) (bt_inv items c)
              (S (Z.to_nat (count items))) (count items) c w1) as (k & w2 & Hrun & Hinv2).
  - unfold size_max, int_max in *. lia.
  - intros j k0 w0 Hj Hj0. apply bt_inv_step; auto; lia.
  - lia.
  - exact Hinv.
  - exists k, w2. split; [|exact Hinv2].
    unfold dp_backtrace. rewrite Sn, (bind_run _ _ _ _ _ Hrun). reflexivity.
Qed.

(** C3, as the code has it: for non-negative int values and weights, a
    capacity C >= 0 and a table of (N+1)*(C+1) cells within int, dp_backtrace
    on the completed table leaves flags (each 0 or 1, next to the unchanged
    values and weights) with sum(weight_i * selected_i) <= C and
    sum(value_i * selected_i) = table[N][C]; and when the best total value
    within capacity C is at most INT_MAX, the marked subset achieves that
    optimal value: sum(value_i * selected_i) is the maximum over all 2^N
    selections of total weight at most C. *)
Theorem backtrace_selection (items : list item) (c : Z) :
  instance_ok items c ->
  exists w, dp_solve (count items) c (start items) = Some (tt, w) /\
    holds_items items (w_objs w) /\
    (forall j, (j < length items)%nat ->
       field (w_objs w) j 2 = 0 \/ field (w_objs w) j 2 = 1) /\
    selected_weight (w_objs w) (length items) <= c /\
    cell (w_vals w) c (count items) c = Some (selected_value (w_objs w) (length items)) /\
    (brute_force items c <= int_max ->
       selected_value (w_objs w) (length items) = brute_force items c).
Proof.
  intros Hok. pose proof Hok as [Hall Hc _].
  destruct (fill_bt_inv items c Hok) as (w1 & Hfill & Hinv1).
  destruct (dp_backtrace_spec items c w1 Hok Hinv1)
    as (k & w2 & Hbt & (Hobjs & _ & Hcell) & Hk & _ & Hflag & _ & Hval & Hwt).
  exists w2. unfold dp_solve. rewrite (bind_run _ _ _ _ _ Hfill).
  split; [exact Hbt|]. split; [exact Hobjs|]. split; [exact Hflag|].
  split; [lia|].
  pose proof (instance_count _ _ Hok) as [Hn _].
  simpl in Hval. rewrite Z.sub_0_r in Hval.
  split.
  - rewrite Hcell by lia. f_equal. rewrite Hval. unfold count.
    rewrite Nat2Z.id. reflexivity.
  - intros Hfit. rewrite Hval.
    apply (best_unique items c); [|apply brute_force_best; exact Hc].
    rewrite <- (firstn_all items) at 1. apply (tab_best items c); auto; lia.
Qed.

(* items 2 and 3 are flagged, 220 is the optimum, and it fits an int *)
Lemma backtrace_selection_witness :
  exists w, dp_solve (count [(60, 10); (100, 20); (120, 30)]) 50
              (start [(60, 10); (100, 20); (120, 30)]) = Some (tt, w) /\
    holds_items [(60, 10); (100, 20); (120, 30)] (w_objs w) /\
    (forall j, (j < length [(60, 10); (100, 20); (120, 30)])%nat ->
       field (w_objs w) j 2 = 0 \/ field (w_objs w) j 2 = 1) /\
    selected_weight (w_objs w) (length [(60, 10); (100, 20); (120, 30)]) <= 50 /\
    cell (w_vals w) 50 (count [(60, 10); (100, 20); (120, 30)]) 50
      = Some (selected_value (w_objs w) (length [(60, 10); (100, 20); (120, 30)])) /\
    selected_value (w_objs w) (length [(60, 10); (100, 20); (120, 30)])
      = brute_force [(60, 10); (100, 20); (120, 30)] 50.
Proof.
  destruct (backtrace_selection [(60, 10); (100, 20); (120, 30)] 50)
    as (w & Hrun & Hholds & Hflag & Hwt & Hcell & Hopt).
  - split; [repeat constructor; simpl; unfold int_max; lia | lia | vm_compute; discriminate].
  - exists w. repeat (split; [assumption|]).
    apply Hopt. vm_compute. discriminate.
Defined.

(** C3 fails as stated: with two items of value 2^30 and weight 0 and
    capacity 0 the backtrace flags the first item only; the flagged subset is
    feasible and worth table[2][0] = 2^30, but the best subset takes both
    items and is worth 2^31, so the marked subset does not achieve the
    optimal value. *)
Lemma backtrace_selection_overflow :
  instance_ok [(1073741824, 0); (1073741824, 0)] 0 /\
  (exists w, dp_solve (count [(1073741824, 0); (1073741824, 0)]) 0
               (start [(1073741824, 0); (1073741824, 0)]) = Some (tt, w) /\
     w_objs w = [1073741824; 0; 1; 1073741824; 0; 0] /\
     w_vals w = [0; 1073741824; 1073741824] /\
     selected_value (w_objs w) 2 = 1073741824) /\
  brute_force [(1073741824, 0); (1073741824, 0)] 0 = 2147483648 /\
  ~ (exists w, dp_solve (count [(1073741824, 0); (1073741824, 0)]) 0
                 (start [(1073741824, 0); (1073741824, 0)]) = Some (tt, w) /\
       selected_weight (w_objs w) (length [(1073741824, 0); (1073741824, 0)]) <= 0 /\
       cell (w_vals w) 0 (count [(1073741824, 0); (1073741824, 0)]) 0
         = Some (selected_value (w_objs w) (length [(1073741824, 0); (1073741824, 0)])) /\
       selected_value (w_objs w) (length [(1073741824, 0); (1073741824, 0)])
         = brute_force [(1073741824, 0); (1073741824, 0)] 0).
Proof.
  split; [|split; [|split]].
  - split; [repeat constructor; simpl; unfold int_max; lia | lia | vm_compute; discriminate].
  - eexists. split; [vm_compute; reflexivity|]. vm_compute. auto.
  - vm_compute. reflexivity.
  - intros (w & Hrun & _ & _ & Hopt).
    vm_compute in Hrun. injection Hrun as <-.
    vm_compute in Hopt. discriminate.
Qed.

(* when the optimum is at most INT_MAX, the value of the selection is the
   optimum *)
Lemma selection_is_optimal (items : list item) (c : Z) :
  instance_ok items c -> brute_force items c <= int_max ->
  exists w, dp_solve (count items) c (start items) = Some (tt, w) /\
    selected_weight (w_objs w) (length items) <= c /\
    selected_value (w_objs w) (length items) = brute_force items c.
Proof.
  intros Hok Htot. pose proof Hok as [Hall Hc _].
  destruct (fill_bt_inv items c Hok) as (w1 & Hfill & Hinv1).
  destruct (dp_backtrace_spec items c w1 Hok Hinv1)
    as (k & w2 & Hbt & _ & Hk & _ & _ & _ & Hval & Hwt).
  exists w2. unfold dp_solve. rewrite (bind_run _ _ _ _ _ Hfill).
  split; [exact Hbt|]. split; [lia|].
  rewrite Hval. simpl. rewrite Z.sub_0_r.
  apply (best_unique items c); [|apply brute_force_best; exact Hc].
  rewrite <- (firstn_all items) at 1. apply (tab_best items c); auto; lia.
Qed.

(* every state the loop of dp_backtrace enters satisfies its invariant *)
Lemma bt_visits_inv (items : list item) (c : Z) (w1 : world) (i k : Z) (w : world) :
  instance_ok items c -> bt_inv items c (count items) c w1 ->
  bt_visits (count items) c w1 i k w -> bt_inv items c i k w.
Proof.
  intros Hok Hinv1 Hvis.
  pose proof (instance_count _ _ Hok) as [Hn _].
  induction Hvis as [|i k k' w w' Hvis IH Hi Hbody].
  - rewrite to_size_id by (unfold size_max, int_max in *; lia). exact Hinv1.
  - destruct (bt_inv_step items c i k w Hok Hi IH) as (k2 & w2 & Hbody2 & Hinv2).
    rewrite Hbody in Hbody2. injection Hbody2 as <- <-.
    destruct IH as (_ & _ & Hin & _). unfold size_sub.
    rewrite (to_size_id (i - 1)) by (unfold size_max, int_max in *; lia).
    exact Hinv2.
Qed.

(* the state in which the loop ends is one of them *)
Lemma bt_visits_final (n c : Z) (w1 : world) (fuel : nat) (i k : Z) (w : world)
    (kf : Z) (wf : world) :
  bt_visits n c w1 i k w -> 0 <= i ->
  for_down fuel i (bt_body c) k w = Some (kf, wf) ->
  bt_visits n c w1 0 kf wf.
Proof.
  revert i k w. induction fuel as [|fuel IH]; intros i k w Hvis Hi Hrun.
  - discriminate.
  - simpl in Hrun. destruct (0 <? i) eqn:E.
    + apply Z.ltb_lt in E.
      apply bind_Some in Hrun. destruct Hrun as (k1 & w2 & Hbody & Hrun).
      apply (IH (size_sub i 1) k1 w2); [|unfold size_sub, to_size|exact Hrun].
      * apply (bt_next n c w1 i k k1 w w2); assumption.
      * apply Z.mod_pos_bound. lia.
    + apply Z.ltb_ge in E. assert (i = 0) as -> by lia.
      injection Hrun as <- <-. exact Hvis.
Qed.

(** C6: on the table dp_knapsack builds from non-negative int values and
    weights (capacity C >= 0, (N+1)*(C+1) an int), dp_backtrace runs to its
    end, and in every state in which its loop enters an iteration the counter
    i is in [0,N] and the cursor k is in [0,C]; in an iteration (i > 0) the
    two indices i*(c+1)+k and (i-1)*(c+1)+k lie inside the (N+1)*(C+1)
    cells of the table, and when the iteration records the inclusion of the
    item, its weight is at most k and the new cursor is k - weight. *)
Theorem backtrace_in_range (items : list item) (c : Z) :
  instance_ok items c ->
  exists w1, dp_fill (count items) c (start items) = Some (tt, w1) /\
    (exists w2, dp_backtrace (count items) c w1 = Some (tt, w2)) /\
    forall i k w, bt_visits (count items) c w1 i k w ->
      0 <= i <= count items /\ 0 <= k <= c /\
      Z.of_nat (length (w_vals w)) = (count items + 1) * (c + 1) /\
      (0 < i ->
         0 <= cell_index c i (to_size k) < (count items + 1) * (c + 1) /\
         0 <= cell_index c (size_sub i 1) (to_size k) < (count items + 1) * (c + 1) /\
         exists k' w', bt_body c i k w = Some (k', w') /\
           forall v wt, items !! Z.to_nat (i - 1) = Some (v, wt) ->
             marks i w w' -> wt <= k /\ k' = k - wt /\ 0 <= k').
Proof.
  intros Hok.
  destruct (fill_bt_inv items c Hok) as (w1 & Hfill & Hinv1).
  exists w1. split; [exact Hfill|]. split.
  { destruct (dp_backtrace_spec items c w1 Hok Hinv1) as (k & w2 & Hbt & _). eauto. }
  intros i k w Hvis.
  pose proof (bt_visits_inv items c w1 i k w Hok Hinv1 Hvis) as Hinv.
  pose proof Hinv as (Hw & Hk & Hi & _).
  pose proof Hw as (_ & Hsz & _).
  pose proof (instance_count _ _ Hok) as [Hn Hc1].
  pose proof Hok as [_ Hc Hcells].
  do 3 (split; [assumption|]).
  intros Hpos.
  pose proof (cell_bound (count items) c i k ltac:(lia) Hk) as Bi.
  pose proof (cell_bound (count items) c (i - 1) k ltac:(lia) Hk) as Bp.
  rewrite (to_size_id k) by (unfold size_max, int_max in *; lia).
  unfold size_sub.
  rewrite (to_size_id (i - 1)) by (unfold size_max, int_max in *; lia).
  rewrite !cell_index_id by lia.
  do 2 (split; [assumption|]).
  destruct (item_at items i ltac:(lia)) as (v & wt & Hit).
  destruct (bt_body_spec items c w i k v wt Hok Hw ltac:(lia) Hk Hit)
    as [[E Hrun]|(Hne & Hwk & E & _ & Hrun)].
  - exists k, w. split; [exact Hrun|].
    intros v' wt' _ Hmark. destruct (not_marks_same i w Hmark).
  - exists (k - wt), (marked i w). split; [exact Hrun|].
    intros v' wt' Hit' _. rewrite Hit in Hit'. injection Hit' as <- <-. lia.
Qed.

Lemma backtrace_in_range_witness :
  exists w1, dp_fill 3 50 (start [(60, 10); (100, 20); (120, 30)]) = Some (tt, w1) /\
    (exists w2, dp_backtrace 3 50 w1 = Some (tt, w2)) /\
    forall i k w, bt_visits 3 50 w1 i k w ->
      0 <= i <= 3 /\ 0 <= k <= 50 /\
      Z.of_nat (length (w_vals w)) = (3 + 1) * (50 + 1) /\
      (0 < i ->
         0 <= cell_index 50 i (to_size k) < (3 + 1) * (50 + 1) /\
         0 <= cell_index 50 (size_sub i 1) (to_size k) < (3 + 1) * (50 + 1) /\
         exists k' w', bt_body 50 i k w = Some (k', w') /\
           forall v wt, [(60, 10); (100, 20); (120, 30)] !! Z.to_nat (i - 1) = Some (v, wt) ->
             marks i w w' -> wt <= k /\ k' = k - wt /\ 0 <= k').
Proof.
  apply (backtrace_in_range [(60, 10); (100, 20); (120, 30)] 50).
  split; [repeat constructor; simpl; unfold int_max; lia | lia | vm_compute; discriminate].
Defined.

(** C5: in the table built for non-negative int values and weights (C >= 0,
    (N+1)*(C+1) an int), whenever table[p-1][k] equals
    table[p-1][k - weight] + value the cell table[p][k] is table[p-1][k];
    table[p][k] differs from table[p-1][k] only when the item fits and
    table[p-1][k - weight] + value is strictly greater than table[p-1][k],
    and then it is that sum; and an iteration of dp_backtrace for item p with
    cursor k marks the item exactly when the two cells differ. *)
Theorem tie_keeps_excluded (items : list item) (c : Z) :
  instance_ok items c ->
  exists vals, dp_table items c = Some vals /\
    forall p k v w, 1 <= p <= count items -> 0 <= k <= c ->
      items !! Z.to_nat (p - 1) = Some (v, w) ->
      exists cur prev,
        cell vals c p k = Some cur /\ cell vals c (p - 1) k = Some prev /\
        (forall inc, w <= k -> cell vals c (p - 1) (k - w) = Some inc ->
           prev = inc + v -> cur = prev) /\
        (cur <> prev ->
           w <= k /\ exists inc, cell vals c (p - 1) (k - w) = Some inc /\
                       prev < inc + v /\ cur = inc + v) /\
        (forall st, w_vals st = vals -> holds_items items (w_objs st) ->
           exists k' st', bt_body c p k st = Some (k', st') /\
             (marks p st st' <-> cur <> prev)).
Proof.
  intros Hok. pose proof Hok as [Hall Hc _].
  destruct (dp_table_tab items c Hok) as (vals & Hrun & Hsz & Hcell).
  exists vals. split; [exact Hrun|].
  intros p k v w Hp Hk Hit.
  destruct (item_at_ok _ _ _ _ Hall Hit) as [Hv Hw].
  exists (tab items (Z.to_nat p) k), (tab items (Z.to_nat (p - 1)) k).
  rewrite !Hcell by lia.
  split; [reflexivity|]. split; [reflexivity|].
  assert (Hcase := tab_cases items (Z.to_nat (p - 1)) k v w Hall Hit).
  replace (S (Z.to_nat (p - 1))) with (Z.to_nat p) in Hcase by lia.
  split; [|split].
  - intros inc Hwk Hinc Htie. rewrite Hcell in Hinc by lia.
    injection Hinc as <-.
    destruct Hcase as [[E _]|(_ & _ & Hlt)]; [exact E|lia].
  - intros Hne. destruct Hcase as [[E _]|(Hwk & E & Hlt)]; [contradiction|].
    split; [exact Hwk|].
    exists (tab items (Z.to_nat (p - 1)) (k - w)).
    rewrite Hcell by lia. split; [reflexivity|]. lia.
  - intros st Hvals Hobjs.
    assert (Hst : bt_world items c st).
    { split; [exact Hobjs|]. rewrite Hvals. auto. }
    destruct (bt_body_spec items c st p k v w Hok Hst Hp Hk Hit)
      as [[E Hbody]|(Hne & _ & _ & _ & Hbody)].
    + exists k, st. split; [exact Hbody|]. split.
      * intros Hmark. destruct (not_marks_same p st Hmark).
      * intros Hne. contradiction.
    + exists (k - w), (marked p st). split; [exact Hbody|]. split.
      * intros _. exact Hne.
      * intros _. apply marks_marked.
Qed.

Lemma tie_keeps_excluded_witness :
  exists vals, dp_table [(5, 1); (5, 1)] 1 = Some vals /\
    forall p k v w, 1 <= p <= 2 -> 0 <= k <= 1 ->
      [(5, 1); (5, 1)] !! Z.to_nat (p - 1) = Some (v, w) ->
      exists cur prev,
        cell vals 1 p k = Some cur /\ cell vals 1 (p - 1) k = Some prev /\
        (forall inc, w <= k -> cell vals 1 (p - 1) (k - w) = Some inc ->
           prev = inc + v -> cur = prev) /\
        (cur <> prev ->
           w <= k /\ exists inc, cell vals 1 (p - 1) (k - w) = Some inc /\
                       prev < inc + v /\ cur = inc + v) /\
        (forall st, w_vals st = vals -> holds_items [(5, 1); (5, 1)] (w_objs st) ->
           exists k' st', bt_body 1 p k st = Some (k', st') /\
             (marks p st st' <-> cur <> prev)).
Proof.
  apply (tie_keeps_excluded [(5, 1); (5, 1)] 1).
  split; [repeat constructor; simpl; unfold int_max; lia | lia | vm_compute; discriminate].
Defined.

(** ** What dp_backtrace changes *)

(* one iteration either leaves the state as it is or marks item i *)
Lemma bt_body_frame (c i k : Z) (w : world) (k' : Z) (w' : world) :
  1 <= i <= int_max ->
  bt_body c i k w = Some (k', w') ->
  w' = w \/ (w' = marked i w /\ 0 <= (i - 1) * 3 + 2 < Z.of_nat (length (w_objs w))).
Proof.
  intros Hi Hrun. unfold bt_body in Hrun. unfold int_max in Hi.
  assert (S1 : size_sub i 1 = i - 1) by (apply to_size_id; unfold size_max; lia).
  assert (S2 : size_mul (i - 1) 3 = (i - 1) * 3) by (apply to_size_id; unfold size_max; lia).
  assert (S4 : size_add ((i - 1) * 3) 2 = (i - 1) * 3 + 2)
    by (apply to_size_id; unfold size_max; lia).
  rewrite S1, S2, S4 in Hrun.
  apply bind_Some in Hrun. destruct Hrun as (a & wa & Ha & Hrun).
  apply load_inv in Ha. destruct Ha as [-> _].
  apply bind_Some in Hrun. destruct Hrun as (b & wb & Hb & Hrun).
  apply load_inv in Hb. destruct Hb as [-> _].
  destruct (negb (a =? b)).
  - right.
    apply bind_Some in Hrun. destruct Hrun as (u & ws & Hs & Hrun).
    apply store_inv in Hs. destruct Hs as [Hin ->].
    apply bind_Some in Hrun. destruct Hrun as (wt & wl & Hl & Hrun).
    apply load_inv in Hl. destruct Hl as [-> _].
    injection Hrun as _ <-. split; [reflexivity|exact Hin].
  - left. injection Hrun as _ <-. reflexivity.
Qed.

Lemma frame_inv_step (n : Z) (w0 : world) (c i k : Z) (w : world) (k' : Z) (w' : world) :
  1 <= i <= n -> n <= int_max ->
  frame_inv n w0 i w ->
  bt_body c i k w = Some (k', w') ->
  frame_inv n w0 (i - 1) w'.
Proof.
  intros Hi Hn (Ev & Ef & Et & El & Hvw & Hfl & ws & Ews & Hnd & Hall) Hrun.
  apply bt_body_frame in Hrun; [|lia].
  destruct Hrun as [->|[-> Hin]].
  - repeat split; try assumption.
    exists ws. split; [exact Ews|]. split; [exact Hnd|].
    eapply Forall_impl; [exact Hall|].
    intros x (Ha & Hv & i' & Hi' & Hx). repeat split; try assumption.
    exists i'. split; [lia|exact Hx].
  - assert (Eidx : Z.to_nat ((i - 1) * 3 + 2) = (3 * Z.to_nat (i - 1) + 2)%nat) by lia.
    unfold frame_inv, marked. simpl. rewrite Eidx.
    split; [exact Ev|]. split; [exact Ef|]. split; [exact Et|].
    split; [rewrite length_insert; exact El|].
    split; [|split].
    + intros j f Hf. rewrite list_lookup_insert_ne by lia. apply Hvw. exact Hf.
    + intros j. destruct (decide (j = Z.to_nat (i - 1))) as [->|Hne].
      * right. apply list_lookup_insert_eq. lia.
      * rewrite list_lookup_insert_ne by lia. apply Hfl.
    + exists (ws ++ [Write Objs ((i - 1) * 3 + 2) 1]).
      split; [rewrite Ews, app_assoc; reflexivity|]. split.
      * rewrite map_app. simpl. apply NoDup_app. split; [exact Hnd|].
        split; [|apply NoDup_singleton].
        intros x Hx Hx'. apply list_elem_of_In, in_map_iff in Hx.
        destruct Hx as (y & <- & Hy). apply list_elem_of_In in Hy.
        rewrite Forall_forall in Hall.
        destruct (Hall y Hy) as (_ & _ & i' & Hi' & Ey).
        apply list_elem_of_In in Hx'. simpl in Hx'. lia.
      * apply Forall_app. split.
        -- eapply Forall_impl; [exact Hall|].
           intros x (Ha & Hv & i' & Hi' & Hx). repeat split; try assumption.
           exists i'. split; [lia|exact Hx].
        -- apply Forall_singleton. simpl. repeat split. exists i. split; [lia|reflexivity].
Qed.

(** C9: for an item count n that is a non-negative int, whatever the state
    dp_backtrace is called in, when it returns it has left the table, every
    value field and every weight field as they were; a flag is as it was or
    is 1; and its stores are all stores of 1 into objs[(i-1)*3 + 2] for
    pairwise distinct i in 1..n. *)
Theorem backtrace_frame (n c : Z) (w w' : world) :
  0 <= n <= int_max ->
  dp_backtrace n c w = Some (tt, w') ->
  w_vals w' = w_vals w /\
  length (w_objs w') = length (w_objs w) /\
  (forall j f : nat, (f < 2)%nat ->
     w_objs w' !! (3 * j + f)%nat = w_objs w !! (3 * j + f)%nat) /\
  (forall j : nat, w_objs w' !! (3 * j + 2)%nat = w_objs w !! (3 * j + 2)%nat \/
                   w_objs w' !! (3 * j + 2)%nat = Some 1) /\
  exists ws, w_writes w' = w_writes w ++ ws /\
    NoDup (map wr_idx ws) /\
    Forall (fun x => wr_arr x = Objs /\ wr_val x = 1 /\
                     exists i, 1 <= i <= n /\ wr_idx x = (i - 1) * 3 + 2) ws.
Proof.
  intros Hn Hrun. unfold dp_backtrace in Hrun.
  apply bind_Some in Hrun. destruct Hrun as (k & w2 & Hloop & Hret).
  injection Hret as <-.
  assert (Sn : to_size n = n) by (apply to_size_id; unfold size_max, int_max in *; lia).
  rewrite Sn in Hloop.
  assert (Hinv : frame_inv n w 0 w2).
  { apply (for_down_partial (bt_body c) (fun i _ => frame_inv n w i)
             (S (Z.to_nat n)) n c w k w2).
    - unfold size_max, int_max in *. lia.
    - intros j k0 w0 k1 w1 Hj Hinv Hbody.
      apply (frame_inv_step n w c j k0 w0 k1 w1); auto; lia.
    - repeat split; auto. exists []. rewrite app_nil_r. repeat split.
      + apply NoDup_nil_2.
      + apply Forall_nil_2.
    - exact Hloop. }
  destruct Hinv as (Ev & _ & _ & El & Hvw & Hfl & ws & Ews & Hnd & Hall).
  repeat split; try assumption.
  exists ws. repeat split; try assumption.
  eapply Forall_impl; [exact Hall|].
  intros x (Ha & Hv & i' & Hi' & Hx). repeat split; try assumption.
  exists i'. split; [lia|exact Hx].
Qed.

Lemma backtrace_frame_witness :
  w_vals (World [5; 1; 1] [0; 0; 0; 5] [] [Write Objs 2 1] [])
    = w_vals (World [5; 1; 0] [0; 0; 0; 5] [] [] []) /\
  length (w_objs (World [5; 1; 1] [0; 0; 0; 5] [] [Write Objs 2 1] []))
    = length (w_objs (World [5; 1; 0] [0; 0; 0; 5] [] [] [])) /\
  (forall j f : nat, (f < 2)%nat ->
     w_objs (World [5; 1; 1] [0; 0; 0; 5] [] [Write Objs 2 1] []) !! (3 * j + f)%nat
       = w_objs (World [5; 1; 0] [0; 0; 0; 5] [] [] []) !! (3 * j + f)%nat) /\
  (forall j : nat,
     w_objs (World [5; 1; 1] [0; 0; 0; 5] [] [Write Objs 2 1] []) !! (3 * j + 2)%nat
       = w_objs (World [5; 1; 0] [0; 0; 0; 5] [] [] []) !! (3 * j + 2)%nat \/
     w_objs (World [5; 1; 1] [0; 0; 0; 5] [] [Write Objs 2 1] []) !! (3 * j + 2)%nat
       = Some 1) /\
  exists ws,
    w_writes (World [5; 1; 1] [0; 0; 0; 5] [] [Write Objs 2 1] [])
      = w_writes (World [5; 1; 0] [0; 0; 0; 5] [] [] []) ++ ws /\
    NoDup (map wr_idx ws) /\
    Forall (fun x => wr_arr x = Objs /\ wr_val x = 1 /\
                     exists i, 1 <= i <= 1 /\ wr_idx x = (i - 1) * 3 + 2) ws.
Proof.
  apply (backtrace_frame 1 1 (World [5; 1; 0] [0; 0; 0; 5] [] [] [])
           (World [5; 1; 1] [0; 0; 0; 5] [] [Write Objs 2 1] [])).
  - unfold int_max. lia.
  - vm_compute. reflexivity.
Defined.

(** ** Tables of zeros *)

Lemma tab_zero (items : list item) (c : Z) (p : nat) (k : Z) :
  Forall item_ok items ->
  Forall (fun it : item => it.2 <= c -> it.1 = 0) items ->
  k <= c -> tab items p k = 0.
Proof.
  intros Hall Hfree. revert k. induction p as [|p IH]; intros k Hk; [reflexivity|].
  rewrite tab_S. destruct (items !! p) as [[v w]|] eqn:Hit; [|apply IH; exact Hk].
  destruct (item_at_ok _ _ _ _ Hall Hit) as [_ Hw].
  rewrite Forall_lookup in Hfree. specialize (Hfree _ _ Hit). simpl in Hfree.
  destruct (k <? w) eqn:Ekw; [apply IH; exact Hk|].
  apply Z.ltb_ge in Ekw.
  rewrite (IH k Hk), (IH (k - w)) by lia. rewrite Hfree by lia. reflexivity.
Qed.

Lemma dp_table_zero (items : list item) (c : Z) :
  instance_ok items c ->
  Forall (fun it : item => it.2 <= c -> it.1 = 0) items ->
  exists vals, dp_table items c = Some vals /\ Forall (fun x => x = 0) vals.
Proof.
  intros Hok Hfree. pose proof Hok as [Hall Hc _].
  destruct (dp_table_tab items c Hok) as (vals & Hrun & Hsz & Hcell).
  exists vals. split; [exact Hrun|].
  apply Forall_lookup. intros idx x Hx.
  pose proof (lookup_lt_Some _ _ _ Hx) as Hidx.
  pose proof (Z.div_mod (Z.of_nat idx) (c + 1) ltac:(lia)) as Hdm.
  pose proof (Z.mod_pos_bound (Z.of_nat idx) (c + 1) ltac:(lia)) as Hm.
  pose proof (Z.div_pos (Z.of_nat idx) (c + 1) ltac:(lia) ltac:(lia)) as Hd.
  set (q := Z.of_nat idx / (c + 1)) in *. set (r := Z.of_nat idx mod (c + 1)) in *.
  assert (Hq : q <= count items) by nia.
  specialize (Hcell q r ltac:(lia) ltac:(lia)).
  unfold cell in Hcell. apply elem_Some in Hcell. destruct Hcell as [_ Hcell].
  replace (Z.to_nat (q * (c + 1) + r)) with idx in Hcell by lia.
  rewrite Hx in Hcell. injection Hcell as ->.
  apply (tab_zero items c); [exact Hall|exact Hfree|lia].
Qed.

(* with no item, dp_knapsack prints the value 0 and an empty line *)
Lemma dp_knapsack_empty (c : Z) :
  0 <= c -> c + 1 <= int_max ->
  exists w, dp_knapsack 0 c (start []) = Some (tt, w) /\
    w_objs w = [] /\ w_trace w = [EvPrintInts 0 1; EvPrint newline].
Proof.
  intros Hc Hc1. unfold int_max in Hc1.
  assert (E1 : int_add c 1 = c + 1) by (apply wrap_int_id; unfold int_min, int_max; lia).
  assert (E2 : to_size (int_mul (int_add 0 1) (int_add c 1)) = c + 1).
  { rewrite E1. change (int_add 0 1) with 1. unfold int_mul.
    rewrite Z.mul_1_l, wrap_int_id by (unfold int_min, int_max; lia).
    apply to_size_id. unfold size_max. lia. }
  assert (E3 : int_add (int_mul 0 (int_add c 1)) c = c).
  { unfold int_mul. rewrite Z.mul_0_l. change (wrap_int 0) with 0.
    apply wrap_int_id. unfold int_min, int_max. lia. }
  unfold dp_knapsack, dp_fill. rewrite E2, E3.
  unfold bind, calloc. rewrite decide_True by (unfold size_max; lia).
  change (to_size 0) with 0. simpl.
  unfold load. simpl. rewrite elem_replicate by lia.
  eexists. split; [reflexivity|]. simpl. auto.
Qed.

(** C7, as the code has it: for non-negative int values and weights and a
    table of (N+1)*(C+1) cells within int, when C = 0 and no item has weight
    0 together with a value other than 0, every entry of the table is zero;
    and when N = 0 every entry of the table is zero and the solution is
    empty: the value printed is 0 and no flag is printed. *)
Theorem zero_capacity_or_no_items (items : list item) (c : Z) :
  instance_ok items c ->
  (c = 0 -> Forall (fun it : item => it.2 = 0 -> it.1 = 0) items ->
     exists vals, dp_table items c = Some vals /\ Forall (fun x => x = 0) vals) /\
  (items = [] ->
     (exists vals, dp_table items c = Some vals /\ Forall (fun x => x = 0) vals) /\
     exists w, dp_knapsack (count items) c (start items) = Some (tt, w) /\
       w_objs w = [] /\ w_trace w = [EvPrintInts 0 1; EvPrint newline]).
Proof.
  intros Hok. split.
  - intros -> Hfree. apply dp_table_zero; [exact Hok|].
    pose proof (ok_items _ _ Hok) as Hall.
    rewrite Forall_forall in *. intros [v w] Hin Hw. simpl in *.
    apply (Hfree _ Hin). simpl.
    destruct (Hall _ Hin) as [_ Hw0]. simpl in Hw0. lia.
  - intros ->. split.
    + apply dp_table_zero; [exact Hok|]. constructor.
    + pose proof (instance_count _ _ Hok) as [_ Hc1].
      apply dp_knapsack_empty; [exact (ok_cap _ _ Hok)|exact Hc1].
Qed.

Lemma zero_capacity_or_no_items_witness :
  exists vals, dp_table [(10, 5)] 0 = Some vals /\ Forall (fun x => x = 0) vals.
Proof.
  refine (proj1 (zero_capacity_or_no_items [(10, 5)] 0 _) eq_refl _).
  - split; [repeat constructor; simpl; unfold int_max; lia | lia | vm_compute; discriminate].
  - repeat constructor. simpl. lia.
Defined.

(** C7 fails as stated: one item of value 5 and weight 0 with capacity 0
    gives table[1][0] = 5. *)
Lemma zero_capacity_free_item :
  instance_ok [(5, 0)] 0 /\
  dp_table [(5, 0)] 0 = Some [0; 5] /\
  ~ (exists vals, dp_table [(5, 0)] 0 = Some vals /\ Forall (fun x => x = 0) vals).
Proof.
  split; [|split].
  - split; [repeat constructor; simpl; unfold int_max; lia | lia | vm_compute; discriminate].
  - vm_compute. reflexivity.
  - intros (vals & Hrun & Hzero). vm_compute in Hrun. injection Hrun as <-.
    apply Forall_cons in Hzero. destruct Hzero as [_ Hzero].
    apply Forall_cons in Hzero. destruct Hzero as [H5 _]. discriminate.
Qed.

(** ** main *)

(** C8: called with one positional argument that names a file that cannot
    be opened, main reports it through perror and returns -1; it reads
    nothing, stores nothing, leaves both blocks as they were and prints no
    solution. *)
Theorem main_file_unreadable (prog name : string) (fs : filesystem) (w : world) :
  fs name = None ->
  exists w', main 2 [prog; name] fs w = Some (-1, w') /\
    -1 <> 0 /\
    w_trace w' = w_trace w ++ [EvFopen name false; EvPerror "Could not open file."] /\
    w_objs w' = w_objs w /\ w_vals w' = w_vals w /\
    w_file w' = w_file w /\ w_writes w' = w_writes w.
Proof.
  intros Hfs. unfold main. simpl. unfold bind, fopen. rewrite Hfs. simpl.
  eexists. split; [reflexivity|]. simpl. rewrite <- app_assoc. simpl.
  repeat split. lia.
Qed.

Lemma main_file_unreadable_witness :
  exists w', main 2 ["solver"; "missing"] (fun _ => None) (World [] [] [] [] [])
               = Some (-1, w') /\
    -1 <> 0 /\
    w_trace w' = [] ++ [EvFopen "missing" false; EvPerror "Could not open file."] /\
    w_objs w' = [] /\ w_vals w' = [] /\ w_file w' = [] /\ w_writes w' = [].
Proof.
  apply (main_file_unreadable "solver" "missing" (fun _ => None) (World [] [] [] [] [])).
  reflexivity.
Defined.

(** C10: called with argc other than 2, main opens and reads nothing, does
    not solve, prints nothing, reports nothing, and returns 0: the state is
    the one it was called in. *)
Theorem main_wrong_argc (argc : Z) (argv : list string) (fs : filesystem) (w : world) :
  argc <> 2 -> main argc argv fs w = Some (0, w).
Proof.
  intros Hne. unfold main. rewrite (proj2 (Z.eqb_neq argc 2) Hne). reflexivity.
Qed.

Lemma main_wrong_argc_witness :
  main 1 ["solver"] (fun _ => Some [1; 0; 5; 0]) (World [] [] [] [] [])
    = Some (0, World [] [] [] [] []).
Proof.
  apply (main_wrong_argc 1 ["solver"] (fun _ => Some [1; 0; 5; 0]) (World [] [] [] [] [])).
  lia.
Defined.

(** ** The state main calls dp_knapsack in *)

Lemma objs_of_app (l1 l2 : list item) : objs_of (l1 ++ l2) = objs_of l1 ++ objs_of l2.
Proof.
  induction l1 as [|[v w] l1 IH]; simpl; [reflexivity|]. rewrite IH. reflexivity.
Qed.

Lemma read_item_spec (items : list item) (w0 w : world) (j : Z) :
  3 * count items <= int_max -> 0 <= j < count items ->
  read_inv items w0 j w ->
  exists w', read_item j w = Some (tt, w') /\ read_inv items w0 (j + 1) w'.
Proof.
  unfold count, int_max. intros Hn Hj (Eo & Ef & Ev).
  destruct (lookup_lt_is_Some_2 items (Z.to_nat j) ltac:(lia)) as [[v wt] Hit].
  rewrite (drop_S _ _ _ Hit) in Ef. simpl in Ef.
  assert (S1 : size_mul j 3 = j * 3) by (apply to_size_id; unfold size_max; lia).
  assert (S2 : size_add (j * 3) 1 = j * 3 + 1) by (apply to_size_id; unfold size_max; lia).
  assert (Hlen : length (objs_of (take (Z.to_nat j) items)) = (3 * Z.to_nat j)%nat).
  { rewrite objs_of_length, length_take. lia. }
  replace (3 * (length items - Z.to_nat j))%nat
    with (S (S (S (3 * (length items - Z.to_nat (j + 1)))))) in Eo by lia.
  simpl in Eo.
  unfold read_item, bind, fscanf2. rewrite Ef. simpl. rewrite S1, S2.
  unfold store at 1. simpl. rewrite Eo.
  rewrite decide_True by (rewrite length_app, Hlen; simpl; lia).
  simpl. unfold store. simpl.
  rewrite decide_True
    by (rewrite length_insert, length_app, Hlen; simpl; lia).
  eexists. split; [reflexivity|]. unfold read_inv. simpl.
  split; [|split; [|exact Ev]].
  - replace (Z.to_nat (j * 3 + 1)) with (length (objs_of (take (Z.to_nat j) items)) + 1)%nat
      by lia.
    replace (Z.to_nat (j * 3)) with (length (objs_of (take (Z.to_nat j) items)) + 0)%nat
      by lia.
    rewrite !insert_app_r. simpl.
    replace (Z.to_nat (j + 1)) with (S (Z.to_nat j)) by lia.
    rewrite (take_S_r _ _ _ Hit), objs_of_app. simpl.
    rewrite <- app_assoc. reflexivity.
  - replace (Z.to_nat (j + 1)) with (S (Z.to_nat j)) by lia. reflexivity.
Qed.

#[local] Arguments for_up : simpl never.

(** On the file that lists the items, main reaches the call of
    dp_knapsack with the item block [objs_of items]: values and weights in
    place, every flag 0, as [start items] has it. *)
Lemma main_reads_items (items : list item) (c : Z) (prog name : string)
    (fs : filesystem) (w : world) :
  3 * count items <= int_max ->
  fs name = Some (input_of items c) ->
  exists w1, w_objs w1 = objs_of items /\ w_vals w1 = w_vals w /\
    main 2 [prog; name] fs w =
      (run dp_knapsack (count items) c; run free Objs; ret 0) w1.
Proof.
  intros Hn Hfs. pose proof Hn as Hn'. unfold int_max, count in Hn'.
  assert (Sn : to_size (count items) = count items)
    by (apply to_size_id; unfold size_max, count; lia).
  assert (E3 : to_size (int_mul (count items) 3) = 3 * count items).
  { unfold int_mul. rewrite wrap_int_id by (unfold int_min, int_max, count; lia).
    rewrite to_size_id by (unfold size_max, count; lia). lia. }
  unfold main. simpl. unfold bind at 1. unfold fopen. rewrite Hfs. simpl.
  unfold bind at 1. unfold fscanf2. simpl.
  unfold bind at 1. unfold calloc. rewrite E3, Sn.
  rewrite decide_True by (unfold size_max, count; lia).
  match goal with
  | |- context [bind (for_up ?f ?cnd 0 read_item) _ ?st] =>
      destruct (for_up_total read_item cnd (count items) (read_inv items w)
                  ltac:(unfold size_max, count; lia)
                  ltac:(apply Z.ltb_irrefl) f 0 st) as (w1 & Hloop & Eo & Ef & Ev)
  end.
  - unfold count. lia.
  - intros j Hj. apply Z.ltb_lt. lia.
  - intros j w2 Hj Hinv. apply read_item_spec; auto.
  - lia.
  - unfold read_inv. simpl. rewrite Nat.sub_0_r.
    repeat split. f_equal. unfold count. lia.
  - unfold bind at 1. rewrite Hloop.
    unfold bind at 1. unfold fclose.
    eexists. split; [|split; [|reflexivity]]; simpl.
    + rewrite Eo. unfold count. rewrite Nat2Z.id, firstn_all, Nat.sub_diag.
      simpl. apply app_nil_r.
    + exact Ev.
Qed.

(** ** The scenarios of the specification, run through main *)

(* items (60,10) (100,20) (120,30), capacity 50: value 220, items 2 and 3 *)
Example scenario_three_items :
  run_main ["solver"; "input"] (file_of [3; 50; 60; 10; 100; 20; 120; 30]) =
    Some (0, [EvFopen "input" true; EvFscanf 2; EvFscanf 2; EvFscanf 2; EvFscanf 2;
              EvFclose; EvPrintInts 220 1;
              EvPrint "0 "; EvPrint "1 "; EvPrint "1 "; EvPrint newline]).
Proof. vm_compute. reflexivity. Qed.

(* one item (10,5), capacity 0: value 0, nothing selected *)
Example scenario_no_capacity :
  run_main ["solver"; "input"] (file_of [1; 0; 10; 5]) =
    Some (0, [EvFopen "input" true; EvFscanf 2; EvFscanf 2; EvFclose;
              EvPrintInts 0 1; EvPrint "0 "; EvPrint newline]).
Proof. vm_compute. reflexivity. Qed.

(* no item, capacity 10: value 0 and an empty line *)
Example scenario_no_items :
  run_main ["solver"; "input"] (file_of [0; 10]) =
    Some (0, [EvFopen "input" true; EvFscanf 2; EvFclose;
              EvPrintInts 0 1; EvPrint newline]).
Proof. vm_compute. reflexivity. Qed.

(* capacity 0 and an item of weight 0: it is selected *)
Example scenario_free_item :
  run_main ["solver"; "input"] (file_of [2; 0; 7; 3; 5; 0]) =
    Some (0, [EvFopen "input" true; EvFscanf 2; EvFscanf 2; EvFscanf 2; EvFclose;
              EvPrintInts 5 1; EvPrint "0 "; EvPrint "1 "; EvPrint newline]).
Proof. vm_compute. reflexivity. Qed.

(** * More of the program: dp_print, the whole of dp_knapsack and of main *)

(** ** dp_print *)

Lemma add_trace_add_trace (es1 es2 : list event) (w : world) :
  add_trace es2 (add_trace es1 w) = add_trace (es1 ++ es2) w.
Proof. unfold add_trace. simpl. rewrite app_assoc. reflexivity. Qed.

Lemma printed_flags_S (objs : list Z) (n : nat) :
  printed_flags objs (S n) = printed_flags objs n ++ [flag_token (field objs n 2)].
Proof. unfold printed_flags. rewrite seq_S, map_app. reflexivity. Qed.

Lemma print_body_run (j : Z) (w : world) :
  0 <= j -> 3 * j + 2 < Z.of_nat (length (w_objs w)) -> 3 * j + 2 <= size_max ->
  print_body j w
    = Some (tt, add_trace [flag_token (field (w_objs w) (Z.to_nat j) 2)] w).
Proof.
  intros Hj Hlen Hmax. unfold print_body.
  assert (S1 : size_mul j 3 = j * 3) by (apply to_size_id; lia).
  assert (S2 : size_add (j * 3) 2 = j * 3 + 2) by (apply to_size_id; lia).
  rewrite S1, S2.
  destruct (lookup_lt_is_Some_2 (w_objs w) (Z.to_nat (j * 3 + 2)) ltac:(lia)) as [x Hx].
  assert (Lx : load Objs (j * 3 + 2) w = Some (x, w)).
  { apply load_run. simpl. apply elem_Some. split; [lia|exact Hx]. }
  rewrite (bind_run _ _ _ _ _ Lx).
  unfold field. replace (3 * Z.to_nat j + 2)%nat with (Z.to_nat (j * 3 + 2)) by lia.
  rewrite Hx. simpl. unfold flag_token. destruct (x =? 1); reflexivity.
Qed.

Lemma dp_print_run (n max optimal : Z) (w : world) :
  0 <= n <= int_max -> 3 * n <= Z.of_nat (length (w_objs w)) ->
  dp_print n max optimal w
    = Some (tt, add_trace (printed (w_objs w) (Z.to_nat n) max optimal) w).
Proof.
  intros Hn Hlen. unfold int_max in Hn.
  assert (Sn : to_size n = n) by (apply to_size_id; unfold size_max; lia).
  unfold dp_print. rewrite Sn.
  unfold bind at 1. unfold tell.
  change (emit (EvPrintInts max optimal) w) with (add_trace [EvPrintInts max optimal] w).
  destruct (for_up_total print_body (fun i => i <? n) n
              (fun j st => st = add_trace (EvPrintInts max optimal
                                             :: printed_flags (w_objs w) (Z.to_nat j)) w)
              ltac:(unfold size_max; lia) ltac:(apply Z.ltb_irrefl)
              (S (Z.to_nat n)) 0 (add_trace [EvPrintInts max optimal] w))
    as (w' & Hloop & ->).
  - lia.
  - intros j Hj. apply Z.ltb_lt. lia.
  - intros j st Hj ->. eexists. split.
    + apply print_body_run; simpl; unfold size_max; lia.
    + simpl. rewrite add_trace_add_trace.
      replace (Z.to_nat (j + 1)) with (S (Z.to_nat j)) by lia.
      rewrite printed_flags_S. reflexivity.
  - lia.
  - reflexivity.
  - unfold bind. rewrite Hloop. unfold emit, add_trace, printed. simpl.
    rewrite <- app_assoc. reflexivity.
Qed.

(** X1: dp_print, given an item count n that is a non-negative int and an
    item block of at least 3*n ints, prints the line "max optimal", then for
    each of the n items in order the token "1 " when its flag is exactly 1
    and "0 " for any other flag value, then a newline; it changes nothing in
    memory. *)
Theorem dp_print_output (n max optimal : Z) (w : world) :
  0 <= n <= int_max -> 3 * n <= Z.of_nat (length (w_objs w)) ->
  exists w', dp_print n max optimal w = Some (tt, w') /\
    w_trace w' = w_trace w ++ EvPrintInts max optimal
                   :: map (fun i => EvPrint (if field (w_objs w) i 2 =? 1 then "1 " else "0 "))
                        (seq 0 (Z.to_nat n))
                   ++ [EvPrint newline] /\
    w_objs w' = w_objs w /\ w_vals w' = w_vals w /\
    w_file w' = w_file w /\ w_writes w' = w_writes w.
Proof.
  intros Hn Hlen. rewrite (dp_print_run n max optimal w Hn Hlen).
  eexists. split; [reflexivity|]. simpl. repeat split.
Qed.

Lemma dp_print_output_witness :
  exists w', dp_print 3 7 1 (World [4; 1; 1; 3; 2; 0; 9; 9; 2] [] [] [] []) = Some (tt, w') /\
    w_trace w' = w_trace (World [4; 1; 1; 3; 2; 0; 9; 9; 2] [] [] [] []) ++ EvPrintInts 7 1
                   :: map (fun i => EvPrint
                             (if field (w_objs (World [4; 1; 1; 3; 2; 0; 9; 9; 2] [] [] [] [])) i 2
                                 =? 1 then "1 " else "0 "))
                        (seq 0 (Z.to_nat 3))
                   ++ [EvPrint newline] /\
    w_objs w' = w_objs (World [4; 1; 1; 3; 2; 0; 9; 9; 2] [] [] [] []) /\
    w_vals w' = w_vals (World [4; 1; 1; 3; 2; 0; 9; 9; 2] [] [] [] []) /\
    w_file w' = w_file (World [4; 1; 1; 3; 2; 0; 9; 9; 2] [] [] [] []) /\
    w_writes w' = w_writes (World [4; 1; 1; 3; 2; 0; 9; 9; 2] [] [] [] []).
Proof.
  apply (dp_print_output 3 7 1 (World [4; 1; 1; 3; 2; 0; 9; 9; 2] [] [] [] [])).
  - unfold int_max. lia.
  - simpl. lia.
Defined.

(** ** dp_knapsack from the first line to the last *)

(* dp_backtrace leaves the table, the file and the trace as they were *)
Lemma dp_backtrace_keeps (n c : Z) (w w' : world) :
  0 <= n <= int_max ->
  dp_backtrace n c w = Some (tt, w') ->
  frame_inv n w 0 w'.
Proof.
  intros Hn Hrun. unfold dp_backtrace in Hrun.
  apply bind_Some in Hrun. destruct Hrun as (k & w2 & Hloop & Hret).
  injection Hret as <-.
  assert (Sn : to_size n = n) by (apply to_size_id; unfold size_max, int_max in *; lia).
  rewrite Sn in Hloop.
  apply (for_down_partial (bt_body c) (fun i _ => frame_inv n w i)
           (S (Z.to_nat n)) n c w k w2).
  - unfold size_max, int_max in *. lia.
  - intros j k0 w0 k1 w1 Hj Hinv Hbody.
    apply (frame_inv_step n w c j k0 w0 k1 w1); auto; lia.
  - repeat split; auto. exists []. rewrite app_nil_r. repeat split.
    + apply NoDup_nil_2.
    + apply Forall_nil_2.
  - exact Hloop.
Qed.

(* the table is built from any state that holds the items with their flags
   at 0, and the file and the trace stay as they were *)
Lemma fill_bt_inv_from (items : list item) (c : Z) (w0 : world) :
  instance_ok items c -> w_objs w0 = objs_of items ->
  exists w1, dp_fill (count items) c w0 = Some (tt, w1) /\
             bt_inv items c (count items) c w1 /\
             w_file w1 = w_file w0 /\ w_trace w1 = w_trace w0.
Proof.
  intros Hok Hobjs.
  assert (Hholds : holds_items items (w_objs w0))
    by (rewrite Hobjs; apply holds_items_objs_of).
  destruct (dp_fill_spec items c w0 Hok Hholds)
    as (w1 & Hrun & Eo & Ef & Et & Hsz & Hfill).
  rewrite Hobjs in Eo.
  assert (Hflag : forall j, (j < length items)%nat -> field (w_objs w1) j 2 = 0).
  { intros j Hj. destruct (lookup_lt_is_Some_2 items j Hj) as [[v w] Hit].
    unfold field. rewrite Eo.
    destruct (objs_of_lookup items j v w Hit) as (_ & _ & ->). reflexivity. }
  exists w1. split; [exact Hrun|]. split; [|split; assumption].
  pose proof (ok_cap _ _ Hok).
  split.
  { split; [rewrite Eo; apply holds_items_objs_of|]. split; [exact Hsz|].
    intros p k Hp Hk. unfold count in Hp. apply Hfill; unfold count; lia. }
  repeat split; try (unfold count; lia).
  - intros j Hj. left. apply Hflag. exact Hj.
  - intros j Hj. unfold count in Hj. apply Hflag. lia.
  - unfold selected_value, count. rewrite Nat2Z.id.
    rewrite sum_upto_zero; [lia|]. intros j Hj. rewrite Hflag by exact Hj. lia.
  - unfold selected_weight.
    rewrite sum_upto_zero; [lia|]. intros j Hj. rewrite Hflag by exact Hj. lia.
Qed.

Lemma dp_knapsack_run (items : list item) (c : Z) (w0 : world) :
  instance_ok items c -> w_objs w0 = objs_of items ->
  exists w', dp_knapsack (count items) c w0 = Some (tt, w') /\
    w_vals w' = [] /\ w_file w' = w_file w0 /\
    holds_items items (w_objs w') /\
    (forall j, (j < length items)%nat ->
       field (w_objs w') j 2 = 0 \/ field (w_objs w') j 2 = 1) /\
    selected_weight (w_objs w') (length items) <= c /\
    selected_value (w_objs w') (length items) = tab items (length items) c /\
    w_trace w' = w_trace w0
                   ++ printed (w_objs w') (length items) (tab items (length items) c) 1.
Proof.
  intros Hok Hobjs.
  pose proof (instance_count _ _ Hok) as [Hn Hc1].
  pose proof Hok as [_ Hc Hcells].
  destruct (fill_bt_inv_from items c w0 Hok Hobjs) as (w1 & Hfill & Hinv1 & Ef1 & Et1).
  destruct (dp_backtrace_spec items c w1 Hok Hinv1)
    as (k & w2 & Hbt & (Hholds & Hsz & Hcell) & Hk & _ & Hflag & _ & Hval & Hwt).
  pose proof (dp_backtrace_keeps _ _ _ _ Hn Hbt) as (_ & Ef2 & Et2 & _).
  assert (Eidx : int_add (int_mul (count items) (int_add c 1)) c
                 = count items * (c + 1) + c).
  { unfold int_add, int_mul, int_max in *.
    rewrite (wrap_int_id (c + 1)) by (unfold int_min, int_max; lia).
    rewrite (wrap_int_id (count items * (c + 1))) by (unfold int_min, int_max; nia).
    apply wrap_int_id. unfold int_min, int_max. nia. }
  assert (Lbest : load Vals (count items * (c + 1) + c) w2
                  = Some (tab items (length items) c, w2)).
  { apply load_run. simpl. fold (cell (w_vals w2) c (count items) c).
    rewrite Hcell by lia. unfold count. rewrite Nat2Z.id. reflexivity. }
  assert (Hlen : 3 * count items <= Z.of_nat (length (w_objs w2))).
  { destruct Hholds as [-> _]. unfold count. lia. }
  unfold dp_knapsack.
  rewrite (bind_run _ _ _ _ _ Hfill), (bind_run _ _ _ _ _ Hbt), Eidx.
  rewrite (bind_run _ _ _ _ _ Lbest).
  rewrite (bind_run _ _ _ _ _ (dp_print_run _ _ _ _ Hn Hlen)).
  eexists. split; [reflexivity|]. simpl.
  unfold count. rewrite Nat2Z.id.
  split; [reflexivity|]. split; [congruence|]. split; [exact Hholds|].
  split; [exact Hflag|]. split; [lia|]. split.
  - rewrite Hval. simpl. lia.
  - rewrite Et2, Et1. reflexivity.
Qed.

(** X2: started on an item block whose flags are 0, for non-negative int
    values and weights, a capacity C >= 0 and (N+1)*(C+1) within int,
    dp_knapsack returns, has released the table, has left every value and
    weight in place and every flag 0 or 1, and has printed exactly one
    solution: the first line carries the total value of the flagged items
    together with the constant 1, the second the flags of the items in order,
    and the flagged items weigh at most C together. *)
Theorem dp_knapsack_prints_selection (items : list item) (c : Z) (w0 : world) :
  instance_ok items c -> w_objs w0 = objs_of items ->
  exists w', dp_knapsack (count items) c w0 = Some (tt, w') /\
    w_vals w' = [] /\
    holds_items items (w_objs w') /\
    (forall j, (j < length items)%nat ->
       field (w_objs w') j 2 = 0 \/ field (w_objs w') j 2 = 1) /\
    selected_weight (w_objs w') (length items) <= c /\
    w_trace w' = w_trace w0
                   ++ printed (w_objs w') (length items)
                        (selected_value (w_objs w') (length items)) 1.
Proof.
  intros Hok Hobjs.
  destruct (dp_knapsack_run items c w0 Hok Hobjs)
    as (w' & Hrun & Hv & _ & Hholds & Hflag & Hwt & Hval & Htr).
  exists w'. rewrite Hval. auto 10.
Qed.

Lemma dp_knapsack_prints_selection_witness :
  exists w', dp_knapsack (count [(60, 10); (100, 20); (120, 30)]) 50
               (start [(60, 10); (100, 20); (120, 30)]) = Some (tt, w') /\
    w_vals w' = [] /\
    holds_items [(60, 10); (100, 20); (120, 30)] (w_objs w') /\
    (forall j, (j < length [(60, 10); (100, 20); (120, 30)])%nat ->
       field (w_objs w') j 2 = 0 \/ field (w_objs w') j 2 = 1) /\
    selected_weight (w_objs w') (length [(60, 10); (100, 20); (120, 30)]) <= 50 /\
    w_trace w' = w_trace (start [(60, 10); (100, 20); (120, 30)])
                   ++ printed (w_objs w') (length [(60, 10); (100, 20); (120, 30)])
                        (selected_value (w_objs w')
                           (length [(60, 10); (100, 20); (120, 30)])) 1.
Proof.
  apply (dp_knapsack_prints_selection [(60, 10); (100, 20); (120, 30)] 50
           (start [(60, 10); (100, 20); (120, 30)])).
  - split; [repeat constructor; simpl; unfold int_max; lia | lia | vm_compute; discriminate].
  - reflexivity.
Defined.

(** ** main from the first line to the last *)

Lemma items_read_S (n : nat) (nums : list Z) :
  items_read (S n) nums = items_read n nums ++ [next_item (drop (2 * n) nums)].
Proof.
  revert nums. induction n as [|n IH]; intros nums; [reflexivity|].
  change (items_read (S (S n)) nums)
    with (next_item nums :: items_read (S n) (drop 2 nums)).
  rewrite IH. simpl items_read. rewrite drop_drop.
  replace (2 + 2 * n)%nat with (2 * S n)%nat by lia. reflexivity.
Qed.

Lemma items_read_length (n : nat) (nums : list Z) : length (items_read n nums) = n.
Proof. revert nums. induction n as [|n IH]; intros nums; simpl; [|rewrite IH]; reflexivity. Qed.


(* on a file that stops after the first items, the others are (0, 0) *)
Lemma items_read_short (items : list item) (n : nat) :
  items_read (length items + n) (numbers_of items) = items ++ replicate n (0, 0).
Proof.
  induction items as [|[v w] items IH].
  - simpl. induction n as [|n IHn]; [reflexivity|]. simpl. f_equal. exact IHn.
  - simpl. rewrite drop_0. f_equal. exact IH.
Qed.

Lemma scan_events_S (n : nat) (nums : list Z) :
  scan_events (S n) nums
    = scan_events n nums ++ [EvFscanf (length (take 2 (drop (2 * n) nums)))].
Proof. unfold scan_events. rewrite seq_S, map_app. reflexivity. Qed.

Lemma read_item_any (n : nat) (nums : list Z) (w0 w : world) (j : Z) :
  3 * Z.of_nat n <= int_max -> 0 <= j < Z.of_nat n ->
  read_any_inv n nums w0 j w ->
  exists w', read_item j w = Some (tt, w') /\ read_any_inv n nums w0 (j + 1) w'.
Proof.
  unfold int_max. intros Hn Hj (Eo & Ef & Ev & Et).
  assert (S1 : size_mul j 3 = j * 3) by (apply to_size_id; unfold size_max; lia).
  assert (S2 : size_add (j * 3) 1 = j * 3 + 1) by (apply to_size_id; unfold size_max; lia).
  assert (Hlen : length (objs_of (items_read (Z.to_nat j) nums)) = (3 * Z.to_nat j)%nat).
  { rewrite objs_of_length, items_read_length. reflexivity. }
  replace (3 * (n - Z.to_nat j))%nat
    with (S (S (S (3 * (n - Z.to_nat (j + 1)))))) in Eo by lia.
  simpl in Eo.
  assert (Hnext : forall objs' w',
            objs' = objs_of (items_read (Z.to_nat j) nums)
                      ++ objs_of [next_item (w_file w)]
                      ++ replicate (3 * (n - Z.to_nat (j + 1))) 0 ->
            w_objs w' = objs' -> w_file w' = drop 2 (w_file w) ->
            w_vals w' = w_vals w ->
            w_trace w' = w_trace w ++ [EvFscanf (length (take 2 (w_file w)))] ->
            read_any_inv n nums w0 (j + 1) w').
  { intros objs' w' -> Ho Hf Hv Htr.
    unfold read_any_inv.
    replace (Z.to_nat (j + 1)) with (S (Z.to_nat j)) in * by lia.
    rewrite items_read_S, objs_of_app, scan_events_S, Ho, Hf, Hv, Htr, Ef, Et, Ev.
    rewrite drop_drop, <- !app_assoc.
    replace (2 * Z.to_nat j + 2)%nat with (2 * S (Z.to_nat j))%nat by lia.
    repeat split. }
  unfold read_item, bind, fscanf2.
  destruct (w_file w) as [|v [|wt rest]] eqn:Efile; simpl.
  - (* nothing left *)
    eexists. split; [reflexivity|].
    eapply Hnext; simpl; try reflexivity. rewrite Eo. reflexivity.
  - (* one number left *)
    rewrite S1. unfold store. simpl. rewrite Eo.
    rewrite decide_True by (rewrite length_app, Hlen; simpl; lia).
    eexists. split; [reflexivity|].
    eapply Hnext; simpl; try reflexivity.
    replace (Z.to_nat (j * 3)) with (length (objs_of (items_read (Z.to_nat j) nums)) + 0)%nat
      by lia.
    rewrite insert_app_r. reflexivity.
  - (* two numbers or more *)
    rewrite S1, S2. unfold store at 1. simpl. rewrite Eo.
    rewrite decide_True by (rewrite length_app, Hlen; simpl; lia).
    simpl. unfold store. simpl.
    rewrite decide_True by (rewrite length_insert, length_app, Hlen; simpl; lia).
    eexists. split; [reflexivity|].
    eapply Hnext; simpl; try reflexivity.
    replace (Z.to_nat (j * 3 + 1))
      with (length (objs_of (items_read (Z.to_nat j) nums)) + 1)%nat by lia.
    replace (Z.to_nat (j * 3))
      with (length (objs_of (items_read (Z.to_nat j) nums)) + 0)%nat by lia.
    rewrite !insert_app_r. reflexivity.
Qed.

(* main up to the call of dp_knapsack, on a file of any length *)
Lemma main_reads_any (n c : Z) (nums : list Z) (prog name : string)
    (fs : filesystem) (w : world) :
  0 <= n -> 3 * n <= int_max ->
  fs name = Some (n :: c :: nums) ->
  exists w1, w_objs w1 = objs_of (items_read (Z.to_nat n) nums) /\
    w_vals w1 = w_vals w /\ w_file w1 = [] /\
    w_trace w1 = w_trace w ++ EvFopen name true :: EvFscanf 2
                   :: scan_events (Z.to_nat n) nums ++ [EvFclose] /\
    main 2 [prog; name] fs w =
      (run dp_knapsack n c; run free Objs; ret 0) w1.
Proof.
  intros Hn0 Hn Hfs. pose proof Hn as Hn'. unfold int_max in Hn'.
  assert (Sn : to_size n = n) by (apply to_size_id; unfold size_max; lia).
  assert (E3 : to_size (int_mul n 3) = 3 * n).
  { unfold int_mul. rewrite wrap_int_id by (unfold int_min, int_max; lia).
    rewrite to_size_id by (unfold size_max; lia). lia. }
  unfold main. simpl. unfold bind at 1. unfold fopen. rewrite Hfs. simpl.
  unfold bind at 1. unfold fscanf2. simpl.
  unfold bind at 1. unfold calloc. rewrite E3, Sn.
  rewrite decide_True by (unfold size_max; lia).
  match goal with
  | |- context [bind (for_up ?f ?cnd 0 read_item) _ ?st] =>
      destruct (for_up_total read_item cnd n
                  (read_any_inv (Z.to_nat n) nums
                     (add_trace [EvFopen name true; EvFscanf 2] w))
                  ltac:(unfold size_max; lia)
                  ltac:(apply Z.ltb_irrefl) f 0 st) as (w1 & Hloop & Eo & Ef & Ev & Et)
  end.
  - lia.
  - intros j Hj. apply Z.ltb_lt. lia.
  - intros j w2 Hj Hinv. apply read_item_any; auto; lia.
  - lia.
  - unfold read_any_inv. simpl. rewrite Nat.sub_0_r, drop_0, app_nil_r, <- app_assoc.
    repeat split. f_equal. lia.
  - unfold bind at 1. rewrite Hloop.
    unfold bind at 1. unfold fclose.
    eexists. split; [|split; [|split; [|split; [|reflexivity]]]]; simpl.
    + rewrite Eo, Nat.sub_diag. simpl. apply app_nil_r.
    + exact Ev.
    + reflexivity.
    + rewrite Et. simpl. rewrite <- !app_assoc. reflexivity.
Qed.

Lemma main_run (n c : Z) (nums : list Z) (prog name : string)
    (fs : filesystem) (w : world) :
  0 <= n -> 3 * n <= int_max ->
  fs name = Some (n :: c :: nums) ->
  instance_ok (items_read (Z.to_nat n) nums) c ->
  exists w' objs, main 2 [prog; name] fs w = Some (0, w') /\
    w_objs w' = [] /\ w_vals w' = [] /\ w_file w' = [] /\
    holds_items (items_read (Z.to_nat n) nums) objs /\
    (forall j, (j < Z.to_nat n)%nat -> field objs j 2 = 0 \/ field objs j 2 = 1) /\
    selected_weight objs (Z.to_nat n) <= c /\
    selected_value objs (Z.to_nat n)
      = tab (items_read (Z.to_nat n) nums) (Z.to_nat n) c /\
    w_trace w' = w_trace w ++ EvFopen name true :: EvFscanf 2
                   :: scan_events (Z.to_nat n) nums ++ [EvFclose]
                   ++ printed objs (Z.to_nat n)
                        (tab (items_read (Z.to_nat n) nums) (Z.to_nat n) c) 1.
Proof.
  intros Hn0 Hn Hfs Hok.
  destruct (main_reads_any n c nums prog name fs w Hn0 Hn Hfs)
    as (w1 & Eo & Ev & Ef & Et & ->).
  set (items := items_read (Z.to_nat n) nums) in *.
  assert (Hcount : count items = n).
  { unfold count, items. rewrite items_read_length. lia. }
  destruct (dp_knapsack_run items c w1 Hok Eo)
    as (w2 & Hrun & Hv2 & Hf2 & Hholds & Hflag & Hwt & Hval & Htr).
  assert (Hlen : length items = Z.to_nat n) by (unfold items; apply items_read_length).
  rewrite Hcount in Hrun. rewrite Hlen in *.
  rewrite (bind_run _ _ _ _ _ Hrun).
  exists (set_block Objs [] w2), (w_objs w2).
  split; [reflexivity|]. simpl.
  split; [reflexivity|]. split; [exact Hv2|]. split; [congruence|].
  split; [exact Hholds|]. split; [exact Hflag|]. split; [exact Hwt|].
  split; [exact Hval|].
  rewrite Htr, Et. rewrite <- !app_assoc. simpl. rewrite <- !app_assoc. reflexivity.
Qed.

(** X3: called with one argument that names a readable file whose first two
    numbers are N >= 0 (with 3*N an int) and C, main reads N records with one
    fscanf each: a number the file does not have leaves the 0 of calloc in
    its place, and numbers after the 2*N-th are not read.  When the items so
    read are non-negative ints, C >= 0 and (N+1)*(C+1) is an int, main
    returns 0, has released both blocks and closed the file, and its whole
    input and output is: the open, the N+1 calls of fscanf, the close, and
    one solution whose first line carries the total value of the flagged
    items and the constant 1 and whose second line carries the N flags; the
    flagged items weigh at most C together. *)
Theorem main_solves (n c : Z) (nums : list Z) (prog name : string)
    (fs : filesystem) (w : world) :
  0 <= n -> 3 * n <= int_max ->
  fs name = Some (n :: c :: nums) ->
  instance_ok (items_read (Z.to_nat n) nums) c ->
  exists w' objs, main 2 [prog; name] fs w = Some (0, w') /\
    w_objs w' = [] /\ w_vals w' = [] /\ w_file w' = [] /\
    holds_items (items_read (Z.to_nat n) nums) objs /\
    (forall j, (j < Z.to_nat n)%nat -> field objs j 2 = 0 \/ field objs j 2 = 1) /\
    selected_weight objs (Z.to_nat n) <= c /\
    w_trace w' = w_trace w ++ EvFopen name true :: EvFscanf 2
                   :: scan_events (Z.to_nat n) nums ++ [EvFclose]
                   ++ printed objs (Z.to_nat n) (selected_value objs (Z.to_nat n)) 1.
Proof.
  intros Hn0 Hn Hfs Hok.
  destruct (main_run n c nums prog name fs w Hn0 Hn Hfs Hok)
    as (w' & objs & Hrun & Ho & Hv & Hf & Hholds & Hflag & Hwt & Hval & Htr).
  exists w', objs. rewrite Hval. auto 10.
Qed.

(* a file that stops after the value of the second item: its weight is 0 *)
Lemma main_solves_witness :
  exists w' objs,
    main 2 ["solver"; "input"] (file_of [2; 10; 5; 3; 7]) (World [] [] [] [] [])
      = Some (0, w') /\
    w_objs w' = [] /\ w_vals w' = [] /\ w_file w' = [] /\
    holds_items (items_read (Z.to_nat 2) [5; 3; 7]) objs /\
    (forall j, (j < Z.to_nat 2)%nat -> field objs j 2 = 0 \/ field objs j 2 = 1) /\
    selected_weight objs (Z.to_nat 2) <= 10 /\
    w_trace w' = w_trace (World [] [] [] [] []) ++ EvFopen "input" true :: EvFscanf 2
                   :: scan_events (Z.to_nat 2) [5; 3; 7] ++ [EvFclose]
                   ++ printed objs (Z.to_nat 2) (selected_value objs (Z.to_nat 2)) 1.
Proof.
  apply (main_solves 2 10 [5; 3; 7] "solver" "input" (file_of [2; 10; 5; 3; 7])
           (World [] [] [] [] [])).
  - lia.
  - unfold int_max. lia.
  - reflexivity.
  - split; [repeat constructor; simpl; unfold int_max; lia | lia | vm_compute; discriminate].
Defined.



(** ** What the table holds whether or not an addition wraps *)

(* every stored value is the value of a selection of the first p items that
   weighs at most k *)
Lemma tab_achieved (items : list item) (p : nat) (k : Z) :
  Forall item_ok items -> (p <= length items)%nat -> 0 <= k ->
  exists sel, length sel = p /\
    picked_weight (take p items) sel <= k /\
    picked_value (take p items) sel = tab items p k.
Proof.
  intros Hall. revert k. induction p as [|p IH]; intros k Hp Hk.
  - exists []. simpl. split; [reflexivity|]. split; [lia|reflexivity].
  - destruct (lookup_lt_is_Some_2 items p ltac:(lia)) as [[v w] Hit].
    destruct (item_at_ok _ _ _ _ Hall Hit) as [Hv Hw].
    assert (Hlen : length (take p items) = p) by (rewrite length_take; lia).
    rewrite (take_S_r _ _ _ Hit).
    destruct (tab_cases items p k v w Hall Hit) as [[E _]|(Hwk & E & _)]; rewrite E.
    + destruct (IH k ltac:(lia) Hk) as (s0 & L0 & W0 & V0).
      exists (s0 ++ [false]). rewrite length_app. simpl.
      rewrite picked_weight_snoc, picked_value_snoc by lia.
      repeat split; lia.
    + destruct (IH (k - w) ltac:(lia) ltac:(lia)) as (s1 & L1 & W1 & V1).
      exists (s1 ++ [true]). rewrite length_app. simpl.
      rewrite picked_weight_snoc, picked_value_snoc by lia.
      repeat split; lia.
Qed.

(** X5: for non-negative int values and weights, C >= 0 and (N+1)*(C+1)
    within int, and whether or not an addition wraps while the table is
    built, every cell table[p][k] holds the total value of some selection of
    the first p items whose total weight is at most k; so it is never
    negative and never more than the best value for that prefix and that
    capacity: the builder can fall short of the optimum, it never reports
    more than can be packed. *)
Theorem dp_table_never_over_reports (items : list item) (c : Z) :
  instance_ok items c ->
  exists vals, dp_table items c = Some vals /\
    forall p k, 0 <= p <= count items -> 0 <= k <= c ->
      exists x sel, cell vals c p k = Some x /\
        length sel = Z.to_nat p /\
        picked_weight (take (Z.to_nat p) items) sel <= k /\
        picked_value (take (Z.to_nat p) items) sel = x /\
        0 <= x <= brute_force (take (Z.to_nat p) items) k.
Proof.
  intros Hok. pose proof Hok as [Hall Hc _].
  destruct (dp_table_tab items c Hok) as (vals & Hrun & _ & Hcell).
  exists vals. split; [exact Hrun|].
  intros p k Hp Hk. unfold count in Hp.
  destruct (tab_achieved items (Z.to_nat p) k Hall ltac:(lia) ltac:(lia))
    as (sel & L & W & V).
  exists (tab items (Z.to_nat p) k), sel.
  split; [apply Hcell; unfold count; lia|].
  split; [exact L|]. split; [exact W|]. split; [exact V|].
  pose proof (tab_bounds items (Z.to_nat p) k Hall) as [[H0 _] _].
  split; [exact H0|].
  destruct (brute_force_best (take (Z.to_nat p) items) k ltac:(lia)) as [_ Hub].
  rewrite <- V. apply Hub; [|exact W].
  rewrite L, length_take. lia.
Qed.

(* the instance on which the optimum does not fit an int *)
Lemma dp_table_never_over_reports_witness :
  exists vals, dp_table [(1073741824, 0); (1073741824, 0)] 0 = Some vals /\
    forall p k, 0 <= p <= count [(1073741824, 0); (1073741824, 0)] -> 0 <= k <= 0 ->
      exists x sel, cell vals 0 p k = Some x /\
        length sel = Z.to_nat p /\
        picked_weight (take (Z.to_nat p) [(1073741824, 0); (1073741824, 0)]) sel <= k /\
        picked_value (take (Z.to_nat p) [(1073741824, 0); (1073741824, 0)]) sel = x /\
        0 <= x <= brute_force (take (Z.to_nat p) [(1073741824, 0); (1073741824, 0)]) k.
Proof.
  apply (dp_table_never_over_reports [(1073741824, 0); (1073741824, 0)] 0).
  split; [repeat constructor; simpl; unfold int_max; lia | lia | vm_compute; discriminate].
Defined.

(** X6: for non-negative int values and weights, C >= 0 and (N+1)*(C+1)
    within int, and whether or not an addition wraps, one more item never
    lowers a cell: table[p][k] <= table[p+1][k] for p in [0,N-1] and k in
    [0,C], and table[p+1][k] is either table[p][k] or, when the item fits,
    table[p][k - weight] + value. *)
Theorem dp_table_grows_with_items (items : list item) (c : Z) :
  instance_ok items c ->
  exists vals, dp_table items c = Some vals /\
    forall p k v w, 0 <= p <= count items - 1 -> 0 <= k <= c ->
      items !! Z.to_nat p = Some (v, w) ->
      exists a b, cell vals c p k = Some a /\ cell vals c (p + 1) k = Some b /\
        a <= b /\
        (b = a \/ (w <= k /\ cell vals c p (k - w) = Some (b - v))).
Proof.
  intros Hok. pose proof Hok as [Hall Hc _].
  destruct (dp_table_tab items c Hok) as (vals & Hrun & _ & Hcell).
  exists vals. split; [exact Hrun|].
  intros p k v w Hp Hk Hit.
  destruct (item_at_ok _ _ _ _ Hall Hit) as [Hv Hw].
  exists (tab items (Z.to_nat p) k), (tab items (Z.to_nat (p + 1)) k).
  rewrite !Hcell by lia. split; [reflexivity|]. split; [reflexivity|].
  replace (Z.to_nat (p + 1)) with (S (Z.to_nat p)) by lia.
  destruct (tab_cases items (Z.to_nat p) k v w Hall Hit) as [[E _]|(Hwk & E & Hlt)].
  - rewrite E. split; [lia|]. left. reflexivity.
  - split; [lia|]. right. split; [exact Hwk|].
    rewrite Hcell by lia. f_equal. lia.
Qed.

Lemma dp_table_grows_with_items_witness :
  exists vals, dp_table [(1073741824, 1); (1073741829, 0)] 1 = Some vals /\
    forall p k v w, 0 <= p <= count [(1073741824, 1); (1073741829, 0)] - 1 -> 0 <= k <= 1 ->
      [(1073741824, 1); (1073741829, 0)] !! Z.to_nat p = Some (v, w) ->
      exists a b, cell vals 1 p k = Some a /\ cell vals 1 (p + 1) k = Some b /\
        a <= b /\
        (b = a \/ (w <= k /\ cell vals 1 p (k - w) = Some (b - v))).
Proof.
  apply (dp_table_grows_with_items [(1073741824, 1); (1073741829, 0)] 1).
  split; [repeat constructor; simpl; unfold int_max; lia | lia | vm_compute; discriminate].
Defined.

(** ** Items at the end of the list do not reach the rows before them *)

Lemma tab_prefix (items more : list item) (p : nat) (k : Z) :
  (p <= length items)%nat -> tab (items ++ more) p k = tab items p k.
Proof.
  revert k. induction p as [|p IH]; intros k Hp; [reflexivity|].
  rewrite !tab_S, lookup_app_l by lia.
  destruct (items !! p) as [[v w]|]; rewrite ?IH by lia; reflexivity.
Qed.

Lemma instance_ok_prefix (items more : list item) (c : Z) :
  instance_ok (items ++ more) c -> instance_ok items c.
Proof.
  intros [Hall Hc Hcells]. apply Forall_app in Hall. destruct Hall as [Hall _].
  split; [exact Hall|exact Hc|].
  unfold count in *. rewrite length_app in Hcells. nia.
Qed.

(** X7: when dp_knapsack builds the table for a list of items followed by
    more items (all non-negative ints, C >= 0, the larger table within int),
    the table for the first items alone is the beginning of that table, cell
    for cell: the rows 0..N of the larger table do not depend on the items
    that come after the N-th. *)
Theorem dp_table_of_prefix (items more : list item) (c : Z) :
  instance_ok (items ++ more) c ->
  exists vals vals', dp_table items c = Some vals /\
    dp_table (items ++ more) c = Some vals' /\
    vals = take (length vals) vals'.
Proof.
  intros Hok'. pose proof (instance_ok_prefix _ _ _ Hok') as Hok.
  pose proof Hok as [_ Hc _].
  destruct (dp_table_tab items c Hok) as (vals & Hrun & Hsz & Hcell).
  destruct (dp_table_tab (items ++ more) c Hok') as (vals' & Hrun' & Hsz' & Hcell').
  exists vals, vals'. split; [exact Hrun|]. split; [exact Hrun'|].
  assert (Hle : (length vals <= length vals')%nat).
  { unfold count in *. rewrite length_app in Hsz'. nia. }
  apply list_eq. intros idx.
  destruct (decide (idx < length vals)%nat) as [Hlt|Hge].
  - rewrite lookup_take_lt by exact Hlt.
    pose proof (Z.div_mod (Z.of_nat idx) (c + 1) ltac:(lia)) as Hdm.
    pose proof (Z.mod_pos_bound (Z.of_nat idx) (c + 1) ltac:(lia)) as Hm.
    pose proof (Z.div_pos (Z.of_nat idx) (c + 1) ltac:(lia) ltac:(lia)) as Hd.
    set (q := Z.of_nat idx / (c + 1)) in *. set (r := Z.of_nat idx mod (c + 1)) in *.
    assert (Hq : q <= count items) by nia.
    assert (Hq' : q <= count (items ++ more))
      by (unfold count in *; rewrite length_app; lia).
    pose proof (Hcell q r ltac:(lia) ltac:(lia)) as H1.
    pose proof (Hcell' q r ltac:(lia) ltac:(lia)) as H2.
    rewrite tab_prefix in H2 by (unfold count in Hq; lia).
    unfold cell in H1, H2. apply elem_Some in H1, H2.
    destruct H1 as [_ H1]. destruct H2 as [_ H2].
    replace (Z.to_nat (q * (c + 1) + r)) with idx in H1, H2 by lia.
    rewrite H1, H2. reflexivity.
  - rewrite lookup_take_ge by lia. apply lookup_ge_None_2. lia.
Qed.

Lemma dp_table_of_prefix_witness :
  exists vals vals', dp_table [(60, 10); (100, 20)] 30 = Some vals /\
    dp_table ([(60, 10); (100, 20)] ++ [(120, 30)]) 30 = Some vals' /\
    vals = take (length vals) vals'.
Proof.
  apply (dp_table_of_prefix [(60, 10); (100, 20)] [(120, 30)] 30).
  split; [repeat constructor; simpl; unfold int_max; lia | lia | vm_compute; discriminate].
Defined.

(** ** The stores of the filling loops *)

(* whenever an iteration of the inner loop returns, it has done one store,
   into the cell of the iteration *)
Lemma fill_cell_writes (c i k : Z) (w w' : world) :
  fill_cell c i k w = Some (tt, w') ->
  exists x, w_writes w' = w_writes w ++ [Write Vals (cell_index c i k) x].
Proof.
  unfold fill_cell. intros Hrun.
  apply bind_Some in Hrun. destruct Hrun as (v & w1 & Hv & Hrun).
  apply load_inv in Hv. destruct Hv as [-> _].
  apply bind_Some in Hrun. destruct Hrun as (wt & w2 & Hw & Hrun).
  apply load_inv in Hw. destruct Hw as [-> _].
  destruct (k <? to_size wt).
  - apply bind_Some in Hrun. destruct Hrun as (x & w3 & Hx & Hrun).
    apply load_inv in Hx. destruct Hx as [-> _].
    apply store_inv in Hrun. destruct Hrun as [_ ->]. eexists. reflexivity.
  - apply bind_Some in Hrun. destruct Hrun as (a & w3 & Ha & Hrun).
    apply load_inv in Ha. destruct Ha as [-> _].
    apply bind_Some in Hrun. destruct Hrun as (b & w4 & Hb & Hrun).
    apply load_inv in Hb. destruct Hb as [-> _].
    apply store_inv in Hrun. destruct Hrun as [_ ->]. eexists. reflexivity.
Qed.

Lemma table_writes_snoc (first len : Z) (ws : list write) (x : Z) :
  0 <= len -> table_writes first len ws ->
  table_writes first (len + 1) (ws ++ [Write Vals (first + len) x]).
Proof.
  intros Hlen [Hidx Hall]. split.
  - rewrite map_app, Hidx. simpl.
    rewrite (seqZ_app first len 1) by lia. rewrite (seqZ_cons (first + len) 1) by lia.
    rewrite (seqZ_nil (Z.succ (first + len))) by lia. reflexivity.
  - apply Forall_app. split; [exact Hall|]. apply Forall_singleton. reflexivity.
Qed.

Lemma table_writes_app (first len1 len2 : Z) (ws1 ws2 : list write) :
  0 <= len1 -> 0 <= len2 ->
  table_writes first len1 ws1 -> table_writes (first + len1) len2 ws2 ->
  table_writes first (len1 + len2) (ws1 ++ ws2).
Proof.
  intros H1 H2 [Hidx1 Hall1] [Hidx2 Hall2]. split.
  - rewrite map_app, Hidx1, Hidx2, (seqZ_app first len1 len2) by lia. reflexivity.
  - apply Forall_app. split; assumption.
Qed.

Lemma fill_row_log (items : list item) (c : Z) (w0 w : world) (i : Z) :
  instance_ok items c -> holds_items items (w_objs w0) ->
  1 <= i <= count items ->
  fill_inv items c w0 i 0 w ->
  exists w', fill_row c i w = Some (tt, w') /\
    fill_log items c w0 (w_writes w) (i * (c + 1)) (c + 1) (i + 1) 0 w'.
Proof.
  intros Hok Hobjs Hi Hinv.
  pose proof (instance_count _ _ Hok) as [Hn Hc1].
  pose proof Hok as [_ Hc Hcells].
  assert (Sc : to_size c = c) by (apply to_size_id; unfold size_max, int_max in *; lia).
  unfold fill_row. rewrite Sc.
  destruct (for_up_total (fill_cell c i) (fun k => k <=? c) (c + 1)
              (fun k => fill_log items c w0 (w_writes w) (i * (c + 1)) k i k)
              ltac:(unfold size_max, int_max in *; lia)
              ltac:(apply Z.leb_gt; lia)
              (S (S (Z.to_nat c))) 0 w) as (w' & Hrun & Hinv' & ws & Ews & Hws);
    try lia.
  - intros j w1 Hj [Hw1 (ws & Ews & Hws)].
    destruct (fill_cell_spec items c w0 w1 i j Hok Hobjs Hi ltac:(lia) Hw1)
      as (w2 & Hcell & Hw2).
    exists w2. split; [exact Hcell|]. split; [exact Hw2|].
    destruct (fill_cell_writes _ _ _ _ _ Hcell) as (x & Ex).
    exists (ws ++ [Write Vals (i * (c + 1) + j) x]). split.
    + rewrite Ex, Ews, <- app_assoc.
      rewrite cell_index_id by (unfold int_max in *; nia). reflexivity.
    + apply table_writes_snoc; [lia|exact Hws].
  - split; [exact Hinv|]. exists []. rewrite app_nil_r. split; [reflexivity|].
    split; [reflexivity|constructor].
  - exists w'. split; [exact Hrun|]. split.
    + destruct Hinv' as (Eo & Ef & Et & Hsz & Hfill). repeat split; try assumption.
      intros p k' Hp Hk' Hlt. apply Hfill; lia.
    + exists ws. split; assumption.
Qed.

Lemma dp_fill_log (items : list item) (c : Z) (w0 : world) :
  instance_ok items c -> holds_items items (w_objs w0) ->
  exists w', dp_fill (count items) c w0 = Some (tt, w') /\
    fill_log items c w0 (w_writes w0) (c + 1) (count items * (c + 1))
      (count items + 1) 0 w'.
Proof.
  intros Hok Hobjs.
  pose proof (instance_count _ _ Hok) as [Hn Hc1].
  pose proof Hok as [_ Hc Hcells].
  destruct (calloc_table items c w0 Hok) as (w1 & Hcal & Hinv1).
  assert (Ew1 : w_writes w1 = w_writes w0).
  { unfold calloc in Hcal. injection Hcal as <-. reflexivity. }
  assert (Sn : to_size (count items) = count items)
    by (apply to_size_id; unfold size_max, int_max in *; lia).
  unfold dp_fill. rewrite (bind_run _ _ _ _ _ Hcal), Sn.
  replace (count items * (c + 1)) with ((count items + 1 - 1) * (c + 1)) by lia.
  apply (for_up_total (fill_row c) (fun i => i <=? count items) (count items + 1)
           (fun i => fill_log items c w0 (w_writes w0) (c + 1) ((i - 1) * (c + 1)) i 0));
    try lia.
  - unfold size_max, int_max in *; lia.
  - intros j w2 Hj [Hw2 (ws & Ews & Hws)].
    destruct (fill_row_log items c w0 w2 j Hok Hobjs ltac:(lia) Hw2)
      as (w3 & Hrow & Hw3 & ws' & Ews' & Hws').
    exists w3. split; [exact Hrow|]. split; [exact Hw3|].
    exists (ws ++ ws'). split; [rewrite Ews', Ews, app_assoc; reflexivity|].
    replace ((j + 1 - 1) * (c + 1)) with ((j - 1) * (c + 1) + (c + 1)) by lia.
    apply table_writes_app; try nia; [exact Hws|].
    replace (c + 1 + (j - 1) * (c + 1)) with (j * (c + 1)) by lia. exact Hws'.
  - split; [exact Hinv1|]. exists []. rewrite Ew1, app_nil_r. split; [reflexivity|].
    split; [reflexivity|constructor].
Qed.

(** X8: for non-negative int values and weights, C >= 0 and (N+1)*(C+1)
    within int, the allocation and the two loops of dp_knapsack return after
    exactly N*(C+1) stores, all of them into the table: one into each cell of
    the rows 1..N, at the consecutive indices C+1, C+2, ..., (N+1)*(C+1)-1 in
    that order.  Row 0 is never stored to (it keeps the zeros of calloc), no
    cell is stored twice, and the item block, the file and the output are
    left as they were. *)
Theorem dp_fill_stores (items : list item) (c : Z) (w0 : world) :
  instance_ok items c -> holds_items items (w_objs w0) ->
  exists w' ws, dp_fill (count items) c w0 = Some (tt, w') /\
    w_writes w' = w_writes w0 ++ ws /\
    map wr_idx ws = seqZ (c + 1) (count items * (c + 1)) /\
    Forall (fun x => wr_arr x = Vals) ws /\
    Z.of_nat (length ws) = count items * (c + 1) /\
    NoDup (map wr_idx ws) /\
    w_objs w' = w_objs w0 /\ w_file w' = w_file w0 /\ w_trace w' = w_trace w0.
Proof.
  intros Hok Hobjs.
  destruct (dp_fill_log items c w0 Hok Hobjs)
    as (w' & Hrun & (Eo & Ef & Et & _) & ws & Ews & Hidx & Hall).
  exists w', ws. repeat split; try assumption.
  - rewrite <- (length_map wr_idx), Hidx, length_seqZ.
    pose proof (ok_cap _ _ Hok). unfold count. nia.
  - rewrite Hidx. apply NoDup_seqZ.
Qed.

Lemma dp_fill_stores_witness :
  exists w' ws, dp_fill (count [(60, 10); (100, 20)]) 30 (start [(60, 10); (100, 20)])
                  = Some (tt, w') /\
    w_writes w' = w_writes (start [(60, 10); (100, 20)]) ++ ws /\
    map wr_idx ws = seqZ (30 + 1) (count [(60, 10); (100, 20)] * (30 + 1)) /\
    Forall (fun x => wr_arr x = Vals) ws /\
    Z.of_nat (length ws) = count [(60, 10); (100, 20)] * (30 + 1) /\
    NoDup (map wr_idx ws) /\
    w_objs w' = w_objs (start [(60, 10); (100, 20)]) /\
    w_file w' = w_file (start [(60, 10); (100, 20)]) /\
    w_trace w' = w_trace (start [(60, 10); (100, 20)]).
Proof.
  apply (dp_fill_stores [(60, 10); (100, 20)] 30 (start [(60, 10); (100, 20)])).
  - split; [repeat constructor; simpl; unfold int_max; lia | lia | vm_compute; discriminate].
  - apply holds_items_objs_of.
Defined.

(** ** Which items the backtrace flags *)

Section flag_rule.
Variable items : list item.
Variable c : Z.
Variable R : nat -> Z -> Prop.
Hypothesis Hok : instance_ok items c.
(* the flag an iteration leaves is decided by the two cells it compares *)
Hypothesis R_same : forall i k, 1 <= i <= count items -> 0 <= k <= c ->
  tab items (Z.to_nat i) k = tab items (Z.to_nat (i - 1)) k -> R (Z.to_nat (i - 1)) 0.
Hypothesis R_diff : forall i k, 1 <= i <= count items -> 0 <= k <= c ->
  tab items (Z.to_nat i) k <> tab items (Z.to_nat (i - 1)) k -> R (Z.to_nat (i - 1)) 1.

Lemma bt_rule_step (i k : Z) (w : world) :
  0 < i -> bt_rule_inv items c R i k w ->
  exists k' w', bt_body c i k w = Some (k', w') /\ bt_rule_inv items c R (i - 1) k' w'.
Proof.
  intros Hi [Hinv Hrule].
  destruct (bt_inv_step items c i k w Hok Hi Hinv) as (k' & w' & Hbody & Hinv').
  exists k', w'. split; [exact Hbody|]. split; [exact Hinv'|].
  destruct Hinv as (Hw & Hk & Hin & _ & Hlow & _).
  destruct (item_at items i ltac:(lia)) as (v & wt & Hit).
  destruct (bt_body_spec items c w i k v wt Hok Hw ltac:(lia) Hk Hit)
    as [[E Hrun]|(Hne & _ & _ & _ & Hrun)];
    rewrite Hrun in Hbody; injection Hbody as <- <-; intros j Hj.
  - destruct (decide (j = Z.to_nat (i - 1))) as [->|Hne].
    + rewrite Hlow by lia. apply (R_same i k); auto; lia.
    + apply Hrule. lia.
  - destruct Hw as ([Hlen _] & _).
    assert (Eobjs : w_objs (marked i w) = <[(3 * Z.to_nat (i - 1) + 2)%nat := 1]> (w_objs w)).
    { simpl. f_equal. lia. }
    rewrite Eobjs, field_insert_flag by (unfold count in *; lia).
    destruct (decide _) as [[-> _]|Hne'].
    + apply (R_diff i k); auto; lia.
    + apply Hrule. lia.
Qed.

Lemma bt_rule_run :
  exists w, dp_solve (count items) c (start items) = Some (tt, w) /\
    forall j, (j < length items)%nat -> R j (field (w_objs w) j 2).
Proof.
  destruct (fill_bt_inv items c Hok) as (w1 & Hfill & Hinv1).
  pose proof (instance_count _ _ Hok) as [Hn _].
  assert (Sn : to_size (count items) = count items)
    by (apply to_size_id; unfold size_max, int_max in *; lia).
  destruct (for_down_total (bt_body c) (bt_rule_inv items c R)
              (S (Z.to_nat (count items))) (count items) c w1)
    as (k & w2 & Hrun & _ & Hrule).
  - unfold size_max, int_max in *. lia.
  - intros j k0 w0 Hj Hj0. apply bt_rule_step; [lia|exact Hj0].
  - lia.
  - split; [exact Hinv1|]. intros j Hj. unfold count in Hj. lia.
  - exists w2. unfold dp_solve, dp_backtrace.
    rewrite (bind_run _ _ _ _ _ Hfill), Sn, (bind_run _ _ _ _ _ Hrun).
    split; [reflexivity|]. intros j Hj. apply Hrule. simpl. lia.
Qed.
End flag_rule.

(** X9: for non-negative int values and weights, C >= 0 and (N+1)*(C+1)
    within int, and whether or not an addition wraps, an item that weighs
    more than C is never flagged by the backtrace. *)
Theorem heavy_items_not_selected (items : list item) (c : Z) :
  instance_ok items c ->
  exists w, dp_solve (count items) c (start items) = Some (tt, w) /\
    forall j v wt, items !! j = Some (v, wt) -> c < wt ->
      field (w_objs w) j 2 = 0.
Proof.
  intros Hok. pose proof (ok_items _ _ Hok) as Hall.
  destruct (bt_rule_run items c
              (fun j flag => forall v wt, items !! j = Some (v, wt) -> c < wt -> flag = 0)
              Hok) as (w & Hrun & Hrule).
  - intros i k Hi Hk _ v wt _ _. reflexivity.
  - intros i k Hi Hk Hne v wt Hit Hheavy.
    pose proof (tab_cases items (Z.to_nat (i - 1)) k v wt Hall Hit) as Hcase.
    replace (S (Z.to_nat (i - 1))) with (Z.to_nat i) in Hcase by lia.
    destruct Hcase as [[E _]|(Hwk & _)]; [contradiction|lia].
  - exists w. split; [exact Hrun|].
    intros j v wt Hit Hheavy.
    apply (Hrule j (lookup_lt_Some _ _ _ Hit) v wt Hit Hheavy).
Qed.

Lemma heavy_items_not_selected_witness :
  exists w, dp_solve (count [(60, 10); (500, 51); (120, 30)]) 50
              (start [(60, 10); (500, 51); (120, 30)]) = Some (tt, w) /\
    forall j v wt, [(60, 10); (500, 51); (120, 30)] !! j = Some (v, wt) -> 50 < wt ->
      field (w_objs w) j 2 = 0.
Proof.
  apply (heavy_items_not_selected [(60, 10); (500, 51); (120, 30)] 50).
  split; [repeat constructor; simpl; unfold int_max; lia | lia | vm_compute; discriminate].
Defined.

(** X10: for non-negative int values and weights, C >= 0, (N+1)*(C+1)
    within int and the best total value within capacity C at most INT_MAX,
    every item of weight 0 and of positive value is flagged by the backtrace:
    it costs nothing and the comparison of the builder takes it in every
    column. *)
Theorem free_items_selected (items : list item) (c : Z) :
  instance_ok items c -> brute_force items c <= int_max ->
  exists w, dp_solve (count items) c (start items) = Some (tt, w) /\
    forall j v, items !! j = Some (v, 0) -> 0 < v ->
      field (w_objs w) j 2 = 1.
Proof.
  intros Hok Hfit. pose proof (ok_items _ _ Hok) as Hall.
  destruct (bt_rule_run items c
              (fun j flag => forall v, items !! j = Some (v, 0) -> 0 < v -> flag = 1)
              Hok) as (w & Hrun & Hrule).
  - intros i k Hi Hk E v Hit Hv. exfalso.
    replace (Z.to_nat i) with (S (Z.to_nat (i - 1))) in E by lia.
    rewrite (tab_exact items c _ k v 0 Hall Hfit Hit Hk) in E.
    rewrite Z.sub_0_r in E.
    destruct (k <? 0) eqn:Ek; [apply Z.ltb_lt in Ek|]; lia.
  - intros i k Hi Hk _ v _ _. reflexivity.
  - exists w. split; [exact Hrun|].
    intros j v Hit Hv. apply (Hrule j (lookup_lt_Some _ _ _ Hit) v Hit Hv).
Qed.

Lemma free_items_selected_witness :
  exists w, dp_solve (count [(7, 3); (5, 0)]) 0 (start [(7, 3); (5, 0)]) = Some (tt, w) /\
    forall j v, [(7, 3); (5, 0)] !! j = Some (v, 0) -> 0 < v ->
      field (w_objs w) j 2 = 1.
Proof.
  apply (free_items_selected [(7, 3); (5, 0)] 0).
  - split; [repeat constructor; simpl; unfold int_max; lia | lia | vm_compute; discriminate].
  - vm_compute. discriminate.
Defined.

(** X11: for non-negative int values and weights, C >= 0, (N+1)*(C+1)
    within int and the best total value within capacity C at most INT_MAX, an
    item of value 0 is never flagged: on a tie the builder keeps the value
    without the item, so the backtrace sees no difference. *)
Theorem worthless_items_not_selected (items : list item) (c : Z) :
  instance_ok items c -> brute_force items c <= int_max ->
  exists w, dp_solve (count items) c (start items) = Some (tt, w) /\
    forall j wt, items !! j = Some (0, wt) ->
      field (w_objs w) j 2 = 0.
Proof.
  intros Hok Hfit. pose proof (ok_items _ _ Hok) as Hall.
  destruct (bt_rule_run items c
              (fun j flag => forall wt, items !! j = Some (0, wt) -> flag = 0)
              Hok) as (w & Hrun & Hrule).
  - intros i k Hi Hk _ wt _. reflexivity.
  - intros i k Hi Hk Hne wt Hit. exfalso. apply Hne.
    destruct (item_at_ok _ _ _ _ Hall Hit) as [_ Hw].
    replace (Z.to_nat i) with (S (Z.to_nat (i - 1))) by lia.
    rewrite (tab_exact items c _ k 0 wt Hall Hfit Hit Hk).
    destruct (k <? wt) eqn:Ek; [reflexivity|]. apply Z.ltb_ge in Ek.
    pose proof (tab_mono_cap items c (Z.to_nat (i - 1)) (k - wt) k Hall Hfit
                  ltac:(unfold count in Hi; lia) ltac:(lia) ltac:(lia) ltac:(lia)).
    lia.
  - exists w. split; [exact Hrun|].
    intros j wt Hit. apply (Hrule j (lookup_lt_Some _ _ _ Hit) wt Hit).
Qed.

Lemma worthless_items_not_selected_witness :
  exists w, dp_solve (count [(0, 1); (5, 2)]) 3 (start [(0, 1); (5, 2)]) = Some (tt, w) /\
    forall j wt, [(0, 1); (5, 2)] !! j = Some (0, wt) ->
      field (w_objs w) j 2 = 0.
Proof.
  apply (worthless_items_not_selected [(0, 1); (5, 2)] 3).
  - split; [repeat constructor; simpl; unfold int_max; lia | lia | vm_compute; discriminate].
  - vm_compute. discriminate.
Defined.

(** ** An item of negative weight *)

Lemma to_size_negative (z : Z) : int_min <= z < 0 -> to_size z = z + 18446744073709551616.
Proof.
  unfold int_min, to_size. intros H.
  rewrite <- (Z.mod_add z 1 18446744073709551616) by lia.
  apply Z.mod_small. lia.
Qed.

Lemma fill_cell_negative_weight (n c i k v wt : Z) (w0 w : world) :
  0 <= c -> 1 <= i <= n -> (n + 1) * (c + 1) <= int_max ->
  Z.of_nat (length (w_vals w0)) = (n + 1) * (c + 1) ->
  elem (w_objs w0) ((i - 1) * 3) = Some v ->
  elem (w_objs w0) ((i - 1) * 3 + 1) = Some wt ->
  int_min <= wt < 0 ->
  0 <= k <= c ->
  copy_inv c i w0 k w ->
  exists w', fill_cell c i k w = Some (tt, w') /\ copy_inv c i w0 (k + 1) w'.
Proof.
  intros Hc Hi Hcells Hsz Ev Ew Hneg Hk (Eo & El & Hrow & Hrest).
  pose proof (cell_bound n c i k ltac:(lia) Hk) as Bi.
  pose proof (cell_bound n c (i - 1) k ltac:(lia) Hk) as Bp.
  unfold int_max in *.
  assert (S1 : size_sub i 1 = i - 1) by (apply to_size_id; unfold size_max; nia).
  assert (S2 : size_mul (i - 1) 3 = (i - 1) * 3) by (apply to_size_id; unfold size_max; nia).
  assert (S3 : size_add ((i - 1) * 3) 1 = (i - 1) * 3 + 1)
    by (apply to_size_id; unfold size_max; nia).
  assert (Ci : cell_index c i k = i * (c + 1) + k)
    by (apply cell_index_id; unfold int_max; nia).
  assert (Cp : cell_index c (i - 1) k = (i - 1) * (c + 1) + k)
    by (apply cell_index_id; unfold int_max; nia).
  assert (Lv : load Objs ((i - 1) * 3) w = Some (v, w))
    by (apply load_run; simpl; rewrite Eo; exact Ev).
  assert (Lw : load Objs ((i - 1) * 3 + 1) w = Some (wt, w))
    by (apply load_run; simpl; rewrite Eo; exact Ew).
  (* the cell above is there, and is the one of the state the row started in *)
  destruct (lookup_lt_is_Some_2 (w_vals w0) (Z.to_nat ((i - 1) * (c + 1) + k)) ltac:(lia))
    as [x Hx].
  assert (Hx0 : cell (w_vals w0) c (i - 1) k = Some x)
    by (apply elem_Some; split; [lia|exact Hx]).
  assert (Lx : load Vals ((i - 1) * (c + 1) + k) w = Some (x, w)).
  { apply load_run. simpl. fold (cell (w_vals w) c (i - 1) k).
    rewrite Hrest by lia. exact Hx0. }
  unfold fill_cell. rewrite S1, S2, S3, Ci, Cp.
  rewrite (bind_run _ _ _ _ _ Lv), (bind_run _ _ _ _ _ Lw).
  rewrite (to_size_negative wt Hneg).
  rewrite (proj2 (Z.ltb_lt k (wt + 18446744073709551616))) by (unfold int_min in *; nia).
  rewrite (bind_run _ _ _ _ _ Lx).
  rewrite store_run by (simpl; lia).
  eexists. split; [reflexivity|]. unfold copy_inv. simpl.
  split; [exact Eo|]. split; [rewrite length_insert; exact El|]. split.
  - intros k' Hk'. unfold cell.
    destruct (decide (k' = k)) as [->|Hne].
    + rewrite elem_insert_eq by lia. symmetry. exact Hx0.
    + rewrite elem_insert_ne.
      * apply Hrow. lia.
      * lia.
      * intros E. apply cell_inj in E; lia.
  - intros p k' Hp Hk'. unfold cell. rewrite elem_insert_ne.
    + apply Hrest; assumption.
    + lia.
    + intros E. apply cell_inj in E; lia.
Qed.

(** X12: an item whose weight is a negative int is never taken.  In the
    comparison k < w the weight is converted to size_t and becomes larger
    than any column, so for a table of (n+1)*(c+1) cells within int the inner
    loop for that item copies the row above cell by cell, leaves every other
    row and the item block as they were, and an iteration of dp_backtrace for
    that item then finds no difference at any cursor and changes nothing. *)
Theorem negative_weight_row_is_copied (n c i v wt : Z) (w : world) :
  0 <= c -> 1 <= i <= n -> (n + 1) * (c + 1) <= int_max ->
  Z.of_nat (length (w_vals w)) = (n + 1) * (c + 1) ->
  elem (w_objs w) ((i - 1) * 3) = Some v ->
  elem (w_objs w) ((i - 1) * 3 + 1) = Some wt ->
  int_min <= wt < 0 ->
  exists w', fill_row c i w = Some (tt, w') /\
    w_objs w' = w_objs w /\
    (forall k, 0 <= k <= c ->
       cell (w_vals w') c i k = cell (w_vals w) c (i - 1) k) /\
    (forall p k, p <> i -> 0 <= k <= c ->
       cell (w_vals w') c p k = cell (w_vals w) c p k) /\
    (forall k, 0 <= k <= c -> bt_body c i k w' = Some (k, w')).
Proof.
  intros Hc Hi Hcells Hsz Ev Ew Hneg.
  assert (Sc : to_size c = c) by (apply to_size_id; unfold size_max, int_max in *; nia).
  unfold fill_row. rewrite Sc.
  destruct (for_up_total (fill_cell c i) (fun k => k <=? c) (c + 1)
              (copy_inv c i w)
              ltac:(unfold size_max, int_max in *; nia)
              ltac:(apply Z.leb_gt; lia)
              (S (S (Z.to_nat c))) 0 w) as (w' & Hrun & Eo & El & Hrow & Hrest);
    try lia.
  - intros j w1 Hj Hinv.
    apply (fill_cell_negative_weight n c i j v wt w w1); auto; lia.
  - repeat split; intros; lia.
  - exists w'. split; [exact Hrun|]. split; [exact Eo|].
    split; [intros k Hk; apply Hrow; lia|]. split; [exact Hrest|].
    intros k Hk.
    pose proof (cell_bound n c i k ltac:(lia) Hk) as Bi.
    pose proof (cell_bound n c (i - 1) k ltac:(lia) Hk) as Bp.
    unfold int_max in *.
    assert (S0 : to_size k = k) by (apply to_size_id; unfold size_max; nia).
    assert (S1 : size_sub i 1 = i - 1) by (apply to_size_id; unfold size_max; nia).
    assert (Ci : cell_index c i k = i * (c + 1) + k)
      by (apply cell_index_id; unfold int_max; nia).
    assert (Cp : cell_index c (i - 1) k = (i - 1) * (c + 1) + k)
      by (apply cell_index_id; unfold int_max; nia).
    destruct (lookup_lt_is_Some_2 (w_vals w) (Z.to_nat ((i - 1) * (c + 1) + k)) ltac:(lia))
      as [x Hx].
    assert (Hx0 : cell (w_vals w) c (i - 1) k = Some x)
      by (apply elem_Some; split; [lia|exact Hx]).
    assert (La : load Vals (i * (c + 1) + k) w' = Some (x, w')).
    { apply load_run. simpl. fold (cell (w_vals w') c i k).
      rewrite Hrow by lia. exact Hx0. }
    assert (Lb : load Vals ((i - 1) * (c + 1) + k) w' = Some (x, w')).
    { apply load_run. simpl. fold (cell (w_vals w') c (i - 1) k).
      rewrite Hrest by lia. exact Hx0. }
    unfold bt_body. rewrite S0, S1, Ci, Cp.
    rewrite (bind_run _ _ _ _ _ La), (bind_run _ _ _ _ _ Lb).
    rewrite Z.eqb_refl. reflexivity.
Qed.

Lemma negative_weight_row_is_copied_witness :
  exists w', fill_row 2 1 (World [9; -4; 0] [3; 4; 5; 0; 0; 0] [] [] []) = Some (tt, w') /\
    w_objs w' = w_objs (World [9; -4; 0] [3; 4; 5; 0; 0; 0] [] [] []) /\
    (forall k, 0 <= k <= 2 ->
       cell (w_vals w') 2 1 k
         = cell (w_vals (World [9; -4; 0] [3; 4; 5; 0; 0; 0] [] [] [])) 2 (1 - 1) k) /\
    (forall p k, p <> 1 -> 0 <= k <= 2 ->
       cell (w_vals w') 2 p k
         = cell (w_vals (World [9; -4; 0] [3; 4; 5; 0; 0; 0] [] [] [])) 2 p k) /\
    (forall k, 0 <= k <= 2 -> bt_body 2 1 k w' = Some (k, w')).
Proof.
  apply (negative_weight_row_is_copied 1 2 1 9 (-4)
           (World [9; -4; 0] [3; 4; 5; 0; 0; 0] [] [] [])).
  - lia.
  - lia.
  - vm_compute. discriminate.
  - reflexivity.
  - reflexivity.
  - reflexivity.
  - unfold int_min. lia.
Defined.

(** ** The capacity of the table does not reach its cells *)

(** X13: for the same items (non-negative ints) and two capacities
    0 <= C <= C' whose tables are within int, cell (p, k) of the table built
    for C and cell (p, k) of the table built for C' hold the same value for
    every p in [0,N] and k in [0,C]: a larger capacity adds columns to the
    right of each row and changes none of the columns that were there,
    whether or not an addition wraps. *)
Theorem dp_table_columns_agree (items : list item) (c c' : Z) :
  instance_ok items c' -> 0 <= c <= c' ->
  exists vals vals', dp_table items c = Some vals /\
    dp_table items c' = Some vals' /\
    forall p k, 0 <= p <= count items -> 0 <= k <= c ->
      exists x, cell vals c p k = Some x /\ cell vals' c' p k = Some x.
Proof.
  intros Hok' Hc.
  assert (Hok : instance_ok items c).
  { destruct Hok' as [Hall Hc' Hcells]. split; [exact Hall|lia|].
    unfold count in *. nia. }
  destruct (dp_table_tab items c Hok) as (vals & Hrun & _ & Hcell).
  destruct (dp_table_tab items c' Hok') as (vals' & Hrun' & _ & Hcell').
  exists vals, vals'. split; [exact Hrun|]. split; [exact Hrun'|].
  intros p k Hp Hk. exists (tab items (Z.to_nat p) k).
  split; [apply Hcell|apply Hcell']; lia.
Qed.

Lemma dp_table_columns_agree_witness :
  exists vals vals', dp_table [(60, 10); (100, 20)] 25 = Some vals /\
    dp_table [(60, 10); (100, 20)] 30 = Some vals' /\
    forall p k, 0 <= p <= count [(60, 10); (100, 20)] -> 0 <= k <= 25 ->
      exists x, cell vals 25 p k = Some x /\ cell vals' 30 p k = Some x.
Proof.
  apply (dp_table_columns_agree [(60, 10); (100, 20)] 25 30).
  - split; [repeat constructor; simpl; unfold int_max; lia | lia | vm_compute; discriminate].
  - lia.
Defined.
